(** * Telco churn preprocessing: a shallow embedding of
      [preprocessing/automate_muhammad_rizky_fajar.py]

    The script reads a CSV table, normalises a few text columns, coerces
    [TotalCharges] to numbers, label-encodes the target, fits a
    [ColumnTransformer] (mean imputation and min-max scaling for numeric
    columns, constant imputation and one-hot encoding for text columns,
    pass-through for the rest) and writes four artifacts.  Its statements
    are calls into pandas and scikit-learn; each call is embedded as a
    function of the same name that does what the library does on the
    tables [pd.read_csv] produces (pandas before 3.0, where text columns
    have dtype [object]; scikit-learn 1.2 to 1.7, [sparse_output] being
    new in 1.2).

    Conventions of the embedding.
    - A pandas column is a typed [series]; a missing cell (NaN) is [None].
      A table has the four column types [read_csv] infers: [int64],
      [float64], [bool], and [object] for text.
    - Floating-point numbers are exact rationals ([Q]); rounding and the
      infinities are outside the model.
    - A two-dimensional numpy array is kept column-major: a list of columns,
      so [np.hstack] is list concatenation.
    - Python exceptions are values of [exn]; the file system is the list of
      files written so far, newest first; a write always succeeds.
    - The [print] calls have no effect on the result and are left out.
    - Python compares [str] by code point; on UTF-8 bytes this is the
      byte-wise order [String.compare]. *)

From Stdlib Require Import List String Ascii Bool Arith ZArith QArith Qminmax Lia Lqa.
From Stdlib Require Import OrderedTypeEx Sorted.
Import ListNotations.

Local Open Scope string_scope.
Local Open Scope list_scope.

(** ** Exceptions and results *)

Inductive exn : Type :=
| FileNotFoundError (path : string)
| ParserError (path : string)
| KeyError (key : string)
| ValueError (msg : string)
| NotFittedError (msg : string).

(** The class name Python reports for an exception. *)
Definition exn_name (e : exn) : string :=
  match e with
  | FileNotFoundError _ => "FileNotFoundError"
  | ParserError _ => "ParserError"
  | KeyError _ => "KeyError"
  | ValueError _ => "ValueError"
  | NotFittedError _ => "NotFittedError"
  end.

Inductive result (A : Type) : Type :=
| Ok (a : A)
| Raise (e : exn).
Arguments Ok {A} a.
Arguments Raise {A} e.

Definition rbind {A B} (r : result A) (k : A -> result B) : result B :=
  match r with
  | Ok a => k a
  | Raise e => Raise e
  end.

Notation "'let?' x ':=' r 'in' k" := (rbind r (fun x => k))
  (at level 10, x pattern, r at level 100, k at level 200).

(** ** Columns and tables *)

Inductive dtype : Type := object | int64 | float64 | bool_.

Inductive series : Type :=
| SObject (vs : list (option string))
| SInt64 (vs : list Z)
| SFloat64 (vs : list (option Q))
| SBool (vs : list bool).

Definition series_dtype (s : series) : dtype :=
  match s with
  | SObject _ => object
  | SInt64 _ => int64
  | SFloat64 _ => float64
  | SBool _ => bool_
  end.

Definition series_len (s : series) : nat :=
  match s with
  | SObject vs => List.length vs
  | SInt64 vs => List.length vs
  | SFloat64 vs => List.length vs
  | SBool vs => List.length vs
  end.

(** A table is its columns, left to right, each with its label. *)
Definition DataFrame : Type := list (string * series).

Definition nrows (df : DataFrame) : nat :=
  match df with
  | [] => 0
  | (_, s) :: _ => series_len s
  end.

Definition frame_columns (df : DataFrame) : list string := map fst df.

(** All columns of a table have the length of its index. *)
Definition wf_frame (df : DataFrame) : Prop :=
  Forall (fun c => series_len (snd c) = nrows df) df.

(** [df[col]] *)
Fixpoint getitem (df : DataFrame) (col : string) : result series :=
  match df with
  | [] => Raise (KeyError col)
  | (c, s) :: df' => if String.eqb c col then Ok s else getitem df' col
  end.

(** [df[col] = s]: an existing column keeps its place, a new one goes last. *)
Fixpoint setitem (df : DataFrame) (col : string) (s : series) : DataFrame :=
  match df with
  | [] => [(col, s)]
  | (c, s0) :: df' =>
      if String.eqb c col then (c, s) :: df' else (c, s0) :: setitem df' col s
  end.

(** [df.drop(col, axis=1)] *)
Fixpoint drop (df : DataFrame) (col : string) : result DataFrame :=
  match df with
  | [] => Raise (KeyError col)
  | (c, s) :: df' =>
      if String.eqb c col then Ok df'
      else let? r := drop df' col in Ok ((c, s) :: r)
  end.

(** [s.replace({old: new})]: only text cells can equal a [str] key. *)
Definition replace (old new : string) (s : series) : series :=
  match s with
  | SObject vs =>
      SObject (map (fun v =>
                      match v with
                      | Some x => if String.eqb x old then Some new else Some x
                      | None => None
                      end) vs)
  | _ => s
  end.

(** [df.select_dtypes(include=dts)] *)
Definition select_dtypes (include : list dtype) (df : DataFrame) : DataFrame :=
  filter (fun c =>
            existsb (fun d =>
                       match d, series_dtype (snd c) with
                       | object, object | int64, int64
                       | float64, float64 | bool_, bool_ => true
                       | _, _ => false
                       end) include) df.

(** ** The cleaning rules (source lines 17-19) *)

Definition service_columns : list string :=
  ["OnlineSecurity"; "OnlineBackup"; "DeviceProtection";
   "TechSupport"; "StreamingTV"; "StreamingMovies"].

(** One iteration of the loop: [df[col] = df[col].replace({old: new})]. *)
Definition replace_in (old new : string) (df : DataFrame) (col : string)
  : result DataFrame :=
  let? s := getitem df col in Ok (setitem df col (replace old new s)).

Fixpoint for_columns (f : DataFrame -> string -> result DataFrame)
  (cols : list string) (df : DataFrame) : result DataFrame :=
  match cols with
  | [] => Ok df
  | c :: cols' => let? df' := f df c in for_columns f cols' df'
  end.

Definition clean_rules (df : DataFrame) : result DataFrame :=
  let? df1 :=
    for_columns (replace_in "No internet service" "No") service_columns df in
  replace_in "No phone service" "No" df1 "MultipleLines".

(** Column [c] of [df] exists and holds no [old] any more. *)
Definition settled (old new : string) (df : DataFrame) (c : string) : Prop :=
  exists s, getitem df c = Ok s /\ replace old new s = s.

(** ** Sorted distinct values ([np.unique], Python's [sorted(set(...))]) *)

Section Unique.
Context {A : Type} (cmp : A -> A -> comparison).

Fixpoint insert_uniq (x : A) (l : list A) : list A :=
  match l with
  | [] => [x]
  | y :: l' =>
      match cmp x y with
      | Lt => x :: l
      | Eq => l
      | Gt => y :: insert_uniq x l'
      end
  end.

Definition unique (l : list A) : list A := fold_right insert_uniq [] l.

(** Position of [x] in [l], as [np.searchsorted] or a dict lookup gives it. *)
Fixpoint index_of (x : A) (l : list A) : option nat :=
  match l with
  | [] => None
  | y :: l' =>
      match cmp x y with
      | Eq => Some 0%nat
      | _ => option_map S (index_of x l')
      end
  end.

(** Missing values sort after every observed value. *)
Definition cmp_nan_last (a b : option A) : comparison :=
  match a, b with
  | Some x, Some y => cmp x y
  | Some _, None => Lt
  | None, Some _ => Gt
  | None, None => Eq
  end.
End Unique.

(** ** [sklearn.preprocessing.LabelEncoder] *)

Record LabelEncoder : Type := { classes_ : series }.

Definition inverse_of {A} (cmp : A -> A -> comparison) (classes y : list A)
  : list nat :=
  map (fun v => match index_of cmp v classes with
                | Some i => i
                | None => 0%nat
                end) y.

(** [le.fit_transform(y)]: the sorted distinct values, and for every row the
    position of its value among them ([np.unique(y, return_inverse=True)]). *)
Definition LabelEncoder_fit_transform (y : series) : LabelEncoder * list nat :=
  match y with
  | SObject vs =>
      let cs := unique (cmp_nan_last String.compare) vs in
      ({| classes_ := SObject cs |},
       inverse_of (cmp_nan_last String.compare) cs vs)
  | SInt64 vs =>
      let cs := unique Z.compare vs in
      ({| classes_ := SInt64 cs |}, inverse_of Z.compare cs vs)
  | SFloat64 vs =>
      let cs := unique (cmp_nan_last Qcompare) vs in
      ({| classes_ := SFloat64 cs |},
       inverse_of (cmp_nan_last Qcompare) cs vs)
  | SBool vs =>
      let cs := unique Bool.compare vs in
      ({| classes_ := SBool cs |}, inverse_of Bool.compare cs vs)
  end.

Definition n_classes (le : LabelEncoder) : nat := series_len (classes_ le).

Fixpoint lookup_all {A} (cmp : A -> A -> comparison) (classes y : list A)
  : result (list nat) :=
  match y with
  | [] => Ok []
  | v :: y' =>
      match index_of cmp v classes with
      | Some i => let? r := lookup_all cmp classes y' in Ok (i :: r)
      | None => Raise (ValueError "y contains previously unseen labels")
      end
  end.

(** [le.transform(y)] *)
Definition LabelEncoder_transform (le : LabelEncoder) (y : series)
  : result (list nat) :=
  match classes_ le, y with
  | SObject cs, SObject vs => lookup_all (cmp_nan_last String.compare) cs vs
  | SInt64 cs, SInt64 vs => lookup_all Z.compare cs vs
  | SFloat64 cs, SFloat64 vs => lookup_all (cmp_nan_last Qcompare) cs vs
  | SBool cs, SBool vs => lookup_all Bool.compare cs vs
  | _, _ =>
      if (series_len y =? 0)%nat then Ok []
      else Raise (ValueError "y contains previously unseen labels")
  end.

Fixpoint take_all {A} (classes : list A) (codes : list nat)
  : result (list A) :=
  match codes with
  | [] => Ok []
  | i :: codes' =>
      match nth_error classes i with
      | Some c => let? r := take_all classes codes' in Ok (c :: r)
      | None => Raise (ValueError "y contains previously unseen labels")
      end
  end.

(** [le.inverse_transform(codes)]: [classes_[codes]]. *)
Definition LabelEncoder_inverse_transform (le : LabelEncoder)
  (codes : list nat) : result series :=
  match classes_ le with
  | SObject cs => let? r := take_all cs codes in Ok (SObject r)
  | SInt64 cs => let? r := take_all cs codes in Ok (SInt64 r)
  | SFloat64 cs => let? r := take_all cs codes in Ok (SFloat64 r)
  | SBool cs => let? r := take_all cs codes in Ok (SBool r)
  end.

(** ** Arrays *)

(** A float array with possibly missing cells, and one without. *)
Definition nan_array : Type := list (list (option Q)).
Definition array : Type := list (list Q).

(** [sklearn.utils.check_array]: at least one row and one column. *)
Definition check_array {A} (estimator : string) (X : list (list A))
  : result unit :=
  match X with
  | [] => Raise (ValueError ("Found array with 0 feature(s), required by "
                             ++ estimator))
  | col :: _ =>
      match col with
      | [] => Raise (ValueError ("Found array with 0 sample(s), required by "
                                 ++ estimator))
      | _ :: _ => Ok tt
      end
  end.

Definition check_n_features {A} (n_features_in : nat) (X : list (list A))
  : result unit :=
  if (List.length X =? n_features_in)%nat then Ok tt
  else Raise (ValueError "X has a different number of features than at fit").

(** ** [SimpleImputer(strategy='mean')] *)

Definition observed {A} (col : list (option A)) : list A :=
  flat_map (fun v => match v with Some x => [x] | None => [] end) col.

Definition Qsum (xs : list Q) : Q := fold_right Qplus 0%Q xs.

(** Mean of the observed cells, NaN when there is none. *)
Definition nanmean (col : list (option Q)) : option Q :=
  match observed col with
  | [] => None
  | x :: xs => Some (Qsum (x :: xs) / inject_Z (Z.of_nat (List.length (x :: xs))))%Q
  end.

Record MeanImputer : Type := { statistics_ : list (option Q) }.

Definition MeanImputer_fit (X : nan_array) : result MeanImputer :=
  let? _ := check_array "SimpleImputer" X in
  Ok {| statistics_ := map nanmean X |}.

Definition fillna {A} (fill : A) (col : list (option A)) : list A :=
  map (fun v => match v with Some x => x | None => fill end) col.

(** Columns whose statistic is NaN (no observed value at fit) are dropped,
    the others have their missing cells filled with the statistic. *)
Fixpoint impute_columns (stats : list (option Q)) (X : nan_array) : array :=
  match stats, X with
  | Some m :: stats', col :: X' => fillna m col :: impute_columns stats' X'
  | None :: stats', _ :: X' => impute_columns stats' X'
  | _, _ => []
  end.

Definition MeanImputer_transform (imp : MeanImputer) (X : nan_array)
  : result array :=
  let? _ := check_n_features (List.length (statistics_ imp)) X in
  Ok (impute_columns (statistics_ imp) X).

(** ** [MinMaxScaler()] with the default [feature_range=(0, 1)] *)

Definition Qlist_min (l : list Q) : Q :=
  match l with
  | [] => 0%Q
  | x :: xs => fold_right Qmin x xs
  end.

Definition Qlist_max (l : list Q) : Q :=
  match l with
  | [] => 0%Q
  | x :: xs => fold_right Qmax x xs
  end.

(** [np.finfo(np.float64).eps] *)
Definition float64_eps : Q := 1 # (2 ^ 52).

(** [sklearn.preprocessing._data._handle_zeros_in_scale]:
    [constant_mask = scale < 10 * np.finfo(scale.dtype).eps] and
    [scale[constant_mask] = 1.0]: a range below [10 * eps], and not only a
    zero range, counts as constant and is replaced by 1. *)
Definition handle_zeros_in_scale (r : Q) : Q :=
  if Qlt_le_dec r (10 * float64_eps) then 1%Q else r.

Record MinMaxScaler : Type := {
  data_min_ : list Q;
  data_max_ : list Q;
  scale_ : list Q;
  min_ : list Q
}.

Definition column_scale (col : list Q) : Q :=
  (1 / handle_zeros_in_scale (Qlist_max col - Qlist_min col))%Q.

Definition column_min (col : list Q) : Q :=
  (0 - Qlist_min col * column_scale col)%Q.

Definition MinMaxScaler_fit (X : array) : result MinMaxScaler :=
  let? _ := check_array "MinMaxScaler" X in
  Ok {| data_min_ := map Qlist_min X;
        data_max_ := map Qlist_max X;
        scale_ := map column_scale X;
        min_ := map column_min X |}.

(** [X *= scale_; X += min_], column by column. *)
Fixpoint scale_columns (scale mins : list Q) (X : array) : array :=
  match scale, mins, X with
  | s :: scale', m :: mins', col :: X' =>
      map (fun x => x * s + m)%Q col :: scale_columns scale' mins' X'
  | _, _, _ => []
  end.

Definition MinMaxScaler_transform (sc : MinMaxScaler) (X : array)
  : result array :=
  let? _ := check_n_features (List.length (scale_ sc)) X in
  Ok (scale_columns (scale_ sc) (min_ sc) X).

(** ** The numeric pipeline (source lines 47-50) *)

Record NumericPipeline : Type := {
  num_imputer : MeanImputer;
  num_scaler : MinMaxScaler
}.

Definition numeric_transformer_fit_transform (X : nan_array)
  : result (NumericPipeline * array) :=
  let? imp := MeanImputer_fit X in
  let? Xi := MeanImputer_transform imp X in
  let? sc := MinMaxScaler_fit Xi in
  let? Xs := MinMaxScaler_transform sc Xi in
  Ok ({| num_imputer := imp; num_scaler := sc |}, Xs).

Definition numeric_transformer_transform (p : NumericPipeline) (X : nan_array)
  : result array :=
  let? Xi := MeanImputer_transform (num_imputer p) X in
  MinMaxScaler_transform (num_scaler p) Xi.

(** ** [SimpleImputer(strategy='constant', fill_value=...)] on text columns *)

Definition obj_array : Type := list (list (option string)).

Record ConstantImputer : Type := {
  fill_value : string;
  imputer_n_features_in : nat
}.

Definition ConstantImputer_fit (fill : string) (X : obj_array)
  : result ConstantImputer :=
  let? _ := check_array "SimpleImputer" X in
  Ok {| fill_value := fill; imputer_n_features_in := List.length X |}.

Definition ConstantImputer_transform (imp : ConstantImputer) (X : obj_array)
  : result (list (list string)) :=
  let? _ := check_n_features (imputer_n_features_in imp) X in
  Ok (map (fillna (fill_value imp)) X).

(** ** [OneHotEncoder(handle_unknown=..., sparse_output=False)] *)

Inductive handle_unknown : Type := hu_error | hu_ignore.

Record OneHotEncoder : Type := {
  ohe_handle_unknown : handle_unknown;
  categories_ : list (list string)
}.

Definition OneHotEncoder_fit (hu : handle_unknown) (X : list (list string))
  : result OneHotEncoder :=
  let? _ := check_array "OneHotEncoder" X in
  Ok {| ohe_handle_unknown := hu;
        categories_ := map (unique String.compare) X |}.

(** The indicator column of category [c]. *)
Definition indicator (c : string) (col : list string) : list Q :=
  map (fun v => if String.eqb v c then 1%Q else 0%Q) col.

(** The expansion of one input column: an indicator column per category. *)
Definition onehot_block (cats : list string) (col : list string) : array :=
  map (fun c => indicator c col) cats.

Definition known (cats : list string) (v : string) : bool :=
  existsb (String.eqb v) cats.

Fixpoint onehot_blocks (hu : handle_unknown) (cats : list (list string))
  (X : list (list string)) : result (list array) :=
  match cats, X with
  | cs :: cats', col :: X' =>
      match hu, forallb (known cs) col with
      | hu_error, false =>
          Raise (ValueError "Found unknown categories during transform")
      | _, _ =>
          let? r := onehot_blocks hu cats' X' in Ok (onehot_block cs col :: r)
      end
  | _, _ => Ok []
  end.

Definition OneHotEncoder_transform (enc : OneHotEncoder)
  (X : list (list string)) : result array :=
  let? _ := check_n_features (List.length (categories_ enc)) X in
  let? blocks := onehot_blocks (ohe_handle_unknown enc) (categories_ enc) X in
  Ok (List.concat blocks).

Fixpoint feature_names (input_features : list string)
  (cats : list (list string)) : list string :=
  match input_features, cats with
  | f :: fs, cs :: cats' =>
      map (fun c => (f ++ "_" ++ c)%string) cs ++ feature_names fs cats'
  | _, _ => []
  end.

(** [enc.get_feature_names_out(input_features)] *)
Definition get_feature_names_out (enc : OneHotEncoder)
  (input_features : list string) : result (list string) :=
  if (List.length input_features =? List.length (categories_ enc))%nat
  then Ok (feature_names input_features (categories_ enc))
  else Raise (ValueError "input_features should have length n_features_in_").

(** ** The categorical pipeline (source lines 52-55) *)

Record CategoricalPipeline : Type := {
  cat_imputer : ConstantImputer;
  cat_onehot : OneHotEncoder
}.

Definition categorical_transformer_fit_transform (X : obj_array)
  : result (CategoricalPipeline * array) :=
  let? imp := ConstantImputer_fit "missing" X in
  let? Xi := ConstantImputer_transform imp X in
  let? enc := OneHotEncoder_fit hu_ignore Xi in
  let? Xo := OneHotEncoder_transform enc Xi in
  Ok ({| cat_imputer := imp; cat_onehot := enc |}, Xo).

Definition categorical_transformer_transform (p : CategoricalPipeline)
  (X : obj_array) : result array :=
  let? Xi := ConstantImputer_transform (cat_imputer p) X in
  OneHotEncoder_transform (cat_onehot p) Xi.

(** Row [k] of a column-major array. *)
Definition row_of (X : array) (k : nat) : list Q :=
  map (fun col => nth k col 0%Q) X.

(** The indicators [row] of one cell: a single 1 at position [i], or none. *)
Definition one_hot_at (row : list Q) (i : nat) : Prop :=
  nth_error row i = Some 1%Q /\
  forall j q, j <> i -> nth_error row j = Some q -> q = 0%Q.

Definition all_zero (row : list Q) : Prop := Forall (fun q => q = 0%Q) row.

(** ** [ColumnTransformer(..., remainder='passthrough')] (source lines 58-64) *)

Fixpoint mapM {A B} (f : A -> result B) (l : list A) : result (list B) :=
  match l with
  | [] => Ok []
  | a :: l' => let? b := f a in let? r := mapM f l' in Ok (b :: r)
  end.

(** [X[cols]] *)
Definition select (X : DataFrame) (cols : list string)
  : result (list series) :=
  mapM (getitem X) cols.

(** Conversion of a column to [float64], as the numeric estimators and
    [np.hstack] do it.  A text column never reaches this place from the
    script: line 38 routes every [object] column to the categorical
    pipeline. *)
Definition as_float (s : series) : result (list (option Q)) :=
  match s with
  | SInt64 vs => Ok (map (fun z => Some (inject_Z z)) vs)
  | SFloat64 vs => Ok vs
  | SBool vs => Ok (map (fun b : bool => Some (if b then 1%Q else 0%Q)) vs)
  | SObject _ => Raise (ValueError "could not convert string to float")
  end.

(** The text cells of a column for the categorical pipeline; the constant
    fill value ["missing"] cannot be cast into numeric data. *)
Definition as_object (s : series) : result (list (option string)) :=
  match s with
  | SObject vs => Ok vs
  | _ => Raise (ValueError "fill_value cannot be cast to the input dtype")
  end.

Definition remainder_columns (num_cols cat_cols : list string)
  (X : DataFrame) : DataFrame :=
  filter (fun c => negb (existsb (String.eqb (fst c)) (num_cols ++ cat_cols)))
         X.

(** A transformer whose column selection is empty is skipped and stays
    unfitted: [None]. *)
Record ColumnTransformer : Type := {
  ct_num_cols : list string;
  ct_cat_cols : list string;
  ct_remainder_cols : list string;
  ct_num : option NumericPipeline;
  ct_cat : option CategoricalPipeline
}.

Definition fit_num (X : DataFrame) (num_cols : list string)
  : result (option NumericPipeline * array) :=
  match num_cols with
  | [] => Ok (None, [])
  | _ :: _ =>
      let? ss := select X num_cols in
      let? Xn := mapM as_float ss in
      let? (p, out) := numeric_transformer_fit_transform Xn in
      Ok (Some p, out)
  end.

Definition fit_cat (X : DataFrame) (cat_cols : list string)
  : result (option CategoricalPipeline * array) :=
  match cat_cols with
  | [] => Ok (None, [])
  | _ :: _ =>
      let? ss := select X cat_cols in
      let? Xc := mapM as_object ss in
      let? (p, out) := categorical_transformer_fit_transform Xc in
      Ok (Some p, out)
  end.

Definition to_nan_array (X : array) : nan_array := map (map Some) X.

(** [preprocessor.fit_transform(X)]: the blocks of the three transformers,
    stacked left to right. *)
Definition ColumnTransformer_fit_transform (num_cols cat_cols : list string)
  (X : DataFrame) : result (ColumnTransformer * nan_array) :=
  let? (pn, out_num) := fit_num X num_cols in
  let? (pc, out_cat) := fit_cat X cat_cols in
  let rem := remainder_columns num_cols cat_cols X in
  let? out_rem := mapM as_float (map snd rem) in
  Ok ({| ct_num_cols := num_cols;
         ct_cat_cols := cat_cols;
         ct_remainder_cols := frame_columns rem;
         ct_num := pn;
         ct_cat := pc |},
      to_nan_array out_num ++ to_nan_array out_cat ++ out_rem).

(** [pd.DataFrame(arr, columns=names)] *)
Definition pd_DataFrame (arr : nan_array) (names : list string)
  : result DataFrame :=
  if (List.length arr =? List.length names)%nat
  then Ok (combine names (map SFloat64 arr))
  else Raise (ValueError "Shape of passed values does not match the columns").

(** ** Files *)

Inductive file : Type :=
| CsvFile (df : DataFrame)
| LabelEncoderFile (le : LabelEncoder)
| PreprocessorFile (ct : ColumnTransformer).

(** The files written so far, newest first. *)
Definition disk : Type := list (string * file).

Definition M (A : Type) : Type := disk -> result A * disk.

Definition ret {A} (a : A) : M A := fun d => (Ok a, d).

Definition bind {A B} (m : M A) (k : A -> M B) : M B :=
  fun d =>
    match m d with
    | (Ok a, d') => k a d'
    | (Raise e, d') => (Raise e, d')
    end.

Definition lift {A} (r : result A) : M A := fun d => (r, d).

Notation "x <- m ;; k" := (bind m (fun x => k))
  (at level 61, m at next level, right associativity).
Notation "m ;;; k" := (bind m (fun _ => k))
  (at level 61, right associativity).

Fixpoint lookup_file (d : disk) (path : string) : option file :=
  match d with
  | [] => None
  | (p, f) :: d' => if String.eqb p path then Some f else lookup_file d' path
  end.

(** [pd.read_csv(path)]; the parsing of the text is outside the model, a CSV
    file holds the table it parses to. *)
Definition read_csv (path : string) : M DataFrame :=
  fun d =>
    match lookup_file d path with
    | Some (CsvFile df) => (Ok df, d)
    | Some _ => (Raise (ParserError path), d)
    | None => (Raise (FileNotFoundError path), d)
    end.

Definition write (path : string) (f : file) : M unit :=
  fun d => (Ok tt, (path, f) :: d).

(** [joblib.dump(obj, path)] and [df.to_csv(path, index=False)] *)
Definition dump_label_encoder (le : LabelEncoder) (path : string) : M unit :=
  write path (LabelEncoderFile le).
Definition dump_preprocessor (ct : ColumnTransformer) (path : string)
  : M unit :=
  write path (PreprocessorFile ct).
Definition to_csv (df : DataFrame) (path : string) : M unit :=
  write path (CsvFile df).

(** ** Column classes and output labels (source lines 38-39 and 70-73) *)

Definition categorical_cols (X : DataFrame) : list string :=
  frame_columns (select_dtypes [object] X).
Definition numerical_cols (X : DataFrame) : list string :=
  frame_columns (select_dtypes [int64; float64] X).

(** Lines 70-73: the labels of the output and the output table. *)
Definition label_output (X : DataFrame) (preprocessor : ColumnTransformer)
  (X_processed_array : nan_array) : result DataFrame :=
  let? cat_feature_names :=
    match ct_cat preprocessor with
    | Some p => get_feature_names_out (cat_onehot p) (categorical_cols X)
    | None => Raise (NotFittedError "This OneHotEncoder is not fitted yet")
    end in
  let all_feature_names := numerical_cols X ++ cat_feature_names in
  pd_DataFrame X_processed_array all_feature_names.

(** ** The script *)

Section Script.
(** The numeric parser of [pd.to_numeric]: [None] when the text is not a
    number. *)
Variable parse_float : string -> option Q.

(** [pd.to_numeric(s, errors='coerce')]: a numeric or [bool] column is
    returned as it is; the cells of a text column are parsed, and a cell
    that is not a number becomes NaN.  (pandas gives the result dtype
    [int64] when every cell is an integer, [float64] otherwise; both are
    numeric columns to line 39 and are converted to [float64] by the
    imputer, so the model keeps [float64].) *)
Definition to_numeric_coerce (s : series) : series :=
  match s with
  | SObject vs =>
      SFloat64 (map (fun v => match v with
                              | Some x => parse_float x
                              | None => None
                              end) vs)
  | _ => s
  end.

(** Lines 17-29: cleaning, coercion, and the split into [X] and [y]. *)
Definition clean_and_split (df : DataFrame) : result (DataFrame * series) :=
  let? df := clean_rules df in
  let? tc := getitem df "TotalCharges" in
  let df := setitem df "TotalCharges" (to_numeric_coerce tc) in
  let? df := drop df "customerID" in
  let? X := drop df "Churn" in
  let? y := getitem df "Churn" in
  Ok (X, y).

Definition automate_preprocessing
  (raw_data_path preprocessed_X_path preprocessed_y_path
   preprocessor_path label_encoder_path : string)
  : M (DataFrame * list nat) :=
  df <- read_csv raw_data_path ;;
  Xy <- lift (clean_and_split df) ;;
  let '(X, y) := Xy in
  let '(le, y_encoded) := LabelEncoder_fit_transform y in
  dump_label_encoder le label_encoder_path ;;;
  fitted <- lift (ColumnTransformer_fit_transform
                    (numerical_cols X) (categorical_cols X) X) ;;
  let '(preprocessor, X_processed_array) := fitted in
  X_processed <- lift (label_output X preprocessor X_processed_array) ;;
  dump_preprocessor preprocessor preprocessor_path ;;;
  to_csv X_processed preprocessed_X_path ;;;
  to_csv [("Churn_Encoded", SInt64 (map Z.of_nat y_encoded))]
         preprocessed_y_path ;;;
  ret (X_processed, y_encoded).
End Script.

(** The columns the script reads by name (source lines 17-29), in the order
    it reads them. *)
Definition required_columns : list string :=
  service_columns ++ ["MultipleLines"; "TotalCharges"; "customerID"; "Churn"].

(** The text [s] contains the separator of the one-hot labels. *)
Definition has_underscore (s : string) : Prop :=
  exists a b, s = (a ++ "_" ++ b)%string.

(** ** The entry point (source lines 86-99) *)



(** ** A reference parser and sample tables *)

(** Plain decimal literals: an optional minus sign, digits, and an optional
    fraction.  It instantiates [parse_float] in the examples. *)
Definition digit (c : ascii) : option Z :=
  let n := nat_of_ascii c in
  if ((48 <=? n) && (n <=? 57))%nat then Some (Z.of_nat (n - 48)) else None.

Fixpoint read_digits (s : string) (acc : Z) (n : nat) : Z * nat * string :=
  match s with
  | String c s' =>
      match digit c with
      | Some d => read_digits s' (acc * 10 + d)%Z (S n)
      | None => (acc, n, s)
      end
  | EmptyString => (acc, n, s)
  end.

Definition decimal_literal (s : string) : option Q :=
  let '(neg, s1) :=
    match s with
    | String "-"%char r => (true, r)
    | _ => (false, s)
    end in
  let sign (q : Q) := if neg : bool then Qopp q else q in
  let '(i, ni, s2) := read_digits s1 0%Z 0%nat in
  match ni, s2 with
  | O, _ => None
  | S _, EmptyString => Some (sign (inject_Z i))
  | S _, String "."%char s3 =>
      let '(f, nf, s4) := read_digits s3 0%Z 0%nat in
      match s4 with
      | EmptyString =>
          Some (sign (Qred (Qmake (i * 10 ^ Z.of_nat nf + f)
                                  (Z.to_pos (10 ^ Z.of_nat nf)))))
      | _ => None
      end
  | S _, _ => None
  end.

Module Sample.
Definition yes_no (l : list bool) : series :=
  SObject (map (fun b : bool => Some (if b then "Yes" else "No")) l).

(** The service columns all carry the same three-row column [s]. *)
Definition services (s : series) : DataFrame :=
  map (fun c => (c, s)) service_columns ++ [("MultipleLines", s)].

(** Three customers, with the given [TotalCharges] and [Churn] columns and
    further feature columns [extra]. *)
Definition make (total_charges churn : series) (extra : DataFrame)
  : DataFrame :=
  [("customerID", SObject [Some "A"; Some "B"; Some "C"]);
   ("tenure", SInt64 [1; 34; 2]%Z)]
  ++ services (SObject [Some "No internet service"; Some "Yes"; Some "No"])
  ++ extra
  ++ [("TotalCharges", total_charges); ("Churn", churn)].

Definition charges : series :=
  SObject [Some "29.85"; Some " "; Some "108.15"].

(** The second customer has a blank [TotalCharges]. *)
Definition telco : DataFrame :=
  make charges (yes_no [false; false; true]) [].

(** A target with three distinct values. *)
Definition telco3 : DataFrame :=
  make charges (SObject [Some "Yes"; Some "No"; Some "Maybe"]) [].

(** No [TotalCharges] cell is a number. *)
Definition telco_blank : DataFrame :=
  make (SObject [Some " "; Some " "; Some " "])
       (yes_no [false; false; true]) [].

(** A feature column that [read_csv] types as [bool]. *)
Definition telco_bool : DataFrame :=
  make charges (yes_no [false; false; true])
       [("PaperlessBilling", SBool [true; false; true])].


(** A file with the header line only: every column is read as text, with
    no row. *)
Definition telco_empty : DataFrame :=
  map (fun c => (c, SObject []))
      (["customerID"; "tenure"] ++ service_columns
       ++ ["MultipleLines"; "TotalCharges"; "Churn"]).

Definition paths_run (df : DataFrame) : result (DataFrame * list nat) * disk :=
  automate_preprocessing decimal_literal
    "raw.csv" "X.csv" "y.csv" "preprocessor.joblib" "label_encoder.joblib"
    [("raw.csv", CsvFile df)].
End Sample.

(** * Properties *)

(** ** Results *)

Lemma rbind_ok {A B} (r : result A) (k : A -> result B) (b : B) :
  rbind r k = Ok b -> exists a, r = Ok a /\ k a = Ok b.
Proof.
  destruct r as [a | e]; simpl; intros H; [eauto | discriminate].
Qed.

Ltac inv_ok :=
  repeat match goal with
    | H : rbind _ _ = Ok _ |- _ =>
        let a := fresh "a" in
        let Ha := fresh "Ha" in
        apply rbind_ok in H; destruct H as [a [Ha H]]
    | H : Ok _ = Ok _ |- _ => injection H as H; try subst
    | H : Raise _ = Ok _ |- _ => discriminate H
    end.

(** ** Tables *)

Lemma getitem_setitem (df : DataFrame) (c c' : string) (s : series) :
  getitem (setitem df c s) c' =
  if String.eqb c c' then Ok s else getitem df c'.
Proof.
  induction df as [| [c0 s0] df IH]; simpl.
  - reflexivity.
  - destruct (String.eqb c0 c) eqn:E0; simpl.
    + apply String.eqb_eq in E0; subst c0.
      destruct (String.eqb c c'); reflexivity.
    + destruct (String.eqb c0 c') eqn:E1.
      * destruct (String.eqb c c') eqn:E2; [| reflexivity].
        apply String.eqb_eq in E1, E2; subst.
        rewrite String.eqb_refl in E0; discriminate.
      * apply IH.
Qed.

Lemma setitem_same (df : DataFrame) (c : string) (s : series) :
  getitem df c = Ok s -> setitem df c s = df.
Proof.
  induction df as [| [c0 s0] df IH]; simpl; [discriminate |].
  destruct (String.eqb c0 c); intros H.
  - injection H as ->; reflexivity.
  - rewrite IH by assumption; reflexivity.
Qed.

Lemma replace_idempotent (old new : string) (s : series) :
  replace old new (replace old new s) = replace old new s.
Proof.
  destruct s as [vs | | |]; simpl; try reflexivity.
  f_equal. rewrite map_map. apply map_ext.
  intros [x |]; [| reflexivity].
  destruct (String.eqb x old) eqn:E.
  - destruct (String.eqb new old); reflexivity.
  - rewrite E; reflexivity.
Qed.

Lemma replace_in_settled (old new : string) (df : DataFrame) (c : string) :
  settled old new df c -> replace_in old new df c = Ok df.
Proof.
  intros [s [Hg Hr]]. unfold replace_in. rewrite Hg; simpl.
  rewrite Hr, (setitem_same _ _ _ Hg); reflexivity.
Qed.

Lemma replace_in_settles (old new : string) (df df' : DataFrame) (c : string) :
  replace_in old new df c = Ok df' -> settled old new df' c.
Proof.
  unfold replace_in; intros H; inv_ok.
  exists (replace old new a); split.
  - rewrite getitem_setitem, String.eqb_refl; reflexivity.
  - apply replace_idempotent.
Qed.

Lemma replace_in_keeps (old new o n : string) (df df' : DataFrame)
  (c c' : string) :
  replace_in old new df c = Ok df' ->
  c <> c' \/ (o = old /\ n = new) ->
  settled o n df c' -> settled o n df' c'.
Proof.
  unfold replace_in; intros H Hc [s [Hg Hr]]; inv_ok.
  unfold settled. rewrite getitem_setitem.
  destruct (String.eqb c c') eqn:E.
  - apply String.eqb_eq in E; subst c'.
    destruct Hc as [Hc | [-> ->]]; [congruence |].
    exists (replace old new a); split; [reflexivity |].
    apply replace_idempotent.
  - exists s; auto.
Qed.

Lemma for_columns_settles (old new : string) (cols : list string) :
  forall df df',
    for_columns (replace_in old new) cols df = Ok df' ->
    (forall c, In c cols -> settled old new df' c) /\
    (forall o n c, ~ In c cols -> settled o n df c -> settled o n df' c).
Proof.
  induction cols as [| c0 cols IH]; simpl; intros df df' H.
  - inv_ok; split; [contradiction | auto].
  - inv_ok. destruct (IH _ _ H) as [IH1 IH2]; split.
    + intros c [<- | Hin]; [| auto].
      destruct (in_dec string_dec c0 cols) as [Hi | Hn]; [auto |].
      apply IH2; [assumption |]. eapply replace_in_settles; eassumption.
    + intros o n c Hn Hs. apply IH2; [tauto |].
      eapply replace_in_keeps; [eassumption | left; tauto | assumption].
Qed.

Lemma for_columns_settled (old new : string) (cols : list string)
  (df : DataFrame) :
  (forall c, In c cols -> settled old new df c) ->
  for_columns (replace_in old new) cols df = Ok df.
Proof.
  induction cols as [| c0 cols IH]; simpl; intros H; [reflexivity |].
  rewrite replace_in_settled by auto; simpl. auto.
Qed.

Lemma clean_rules_fixpoint (df df' : DataFrame) :
  clean_rules df = Ok df' -> clean_rules df' = Ok df'.
Proof.
  unfold clean_rules; intros H; inv_ok.
  destruct (for_columns_settles _ _ _ _ _ Ha) as [H1 _].
  assert (Hs : forall c, In c service_columns ->
                         settled "No internet service" "No" df' c).
  { intros c Hc. eapply replace_in_keeps; [eassumption | | auto].
    left. intros <-. revert Hc. clear. simpl.
    intros H; repeat destruct H as [H | H]; discriminate || contradiction. }
  rewrite for_columns_settled by assumption; simpl.
  apply replace_in_settled. eapply replace_in_settles; eassumption.
Qed.

(** C6. Cleaning is idempotent: running Rule 1 and Rule 2 (source lines
    17-19) on a table they have already been applied to gives that table
    back, for every table; when a column is missing, both runs raise the
    same [KeyError]. *)
Theorem C6_clean_rules_idempotent (df : DataFrame) :
  (let? df' := clean_rules df in clean_rules df') = clean_rules df.
Proof.
  destruct (clean_rules df) as [df' | e] eqn:E; simpl; [| reflexivity].
  apply (clean_rules_fixpoint df); assumption.
Qed.

(** ** Sorted distinct values *)

Section UniqueFacts.
Context {A : Type} (cmp : A -> A -> comparison).
Hypothesis cmp_eq : forall x y, cmp x y = Eq <-> x = y.
Hypothesis cmp_antisym : forall x y, cmp x y = CompOpp (cmp y x).
Hypothesis cmp_trans :
  forall x y z, cmp x y = Lt -> cmp y z = Lt -> cmp x z = Lt.

Local Abbreviation lt := (fun x y => cmp x y = Lt).

Lemma cmp_refl x : cmp x x = Eq.
Proof. apply cmp_eq; reflexivity. Qed.

Lemma cmp_gt_lt x y : cmp x y = Gt -> cmp y x = Lt.
Proof. intros H. rewrite cmp_antisym, H; reflexivity. Qed.

Lemma In_insert_uniq x l z : In z (insert_uniq cmp x l) <-> z = x \/ In z l.
Proof.
  induction l as [| y l IH]; simpl.
  - intuition.
  - destruct (cmp x y) eqn:E; simpl.
    + apply cmp_eq in E; subst y. intuition.
    + intuition.
    + rewrite IH. intuition.
Qed.

Lemma In_unique l z : In z (unique cmp l) <-> In z l.
Proof.
  induction l as [| x l IH]; simpl; [reflexivity |].
  rewrite In_insert_uniq, IH. intuition.
Qed.

Lemma insert_uniq_sorted x l :
  StronglySorted lt l -> StronglySorted lt (insert_uniq cmp x l).
Proof.
  induction 1 as [| y l Hs IH Hy]; simpl.
  - repeat constructor.
  - destruct (cmp x y) eqn:E.
    + constructor; assumption.
    + constructor; [constructor; assumption |].
      constructor; [assumption |].
      rewrite Forall_forall in *. intros z Hz. eapply cmp_trans; eauto.
    + constructor; [assumption |].
      rewrite Forall_forall in *. intros z Hz.
      apply In_insert_uniq in Hz. destruct Hz as [-> | Hz]; [| auto].
      apply cmp_gt_lt; assumption.
Qed.

Lemma unique_sorted l : StronglySorted lt (unique cmp l).
Proof.
  induction l; simpl; [constructor | apply insert_uniq_sorted; assumption].
Qed.

Lemma lt_irrefl x : cmp x x <> Lt.
Proof. rewrite cmp_refl; discriminate. Qed.

Lemma lt_asym x y : cmp x y = Lt -> cmp y x = Lt -> False.
Proof. intros H1 H2. rewrite cmp_antisym, H2 in H1; discriminate. Qed.

Lemma sorted_ext l1 :
  forall l2,
    StronglySorted lt l1 -> StronglySorted lt l2 ->
    (forall z, In z l1 <-> In z l2) -> l1 = l2.
Proof.
  induction l1 as [| x l1 IH]; intros [| y l2] H1 H2 Hin.
  - reflexivity.
  - destruct (proj2 (Hin y)); simpl; auto.
  - destruct (proj1 (Hin x)); simpl; auto.
  - inversion H1 as [| ? ? Hs1 Hx]; inversion H2 as [| ? ? Hs2 Hy]; subst.
    rewrite Forall_forall in Hx, Hy.
    assert (x = y) as ->.
    { destruct (proj1 (Hin x) (or_introl eq_refl)) as [E | Hxy]; [auto |].
      destruct (proj2 (Hin y) (or_introl eq_refl)) as [E | Hyx]; [auto |].
      exfalso. eapply lt_asym; eauto. }
    f_equal. apply IH; try assumption.
    intros z; split; intros Hz.
    + destruct (proj1 (Hin z) (or_intror Hz)) as [<- | ?]; [| assumption].
      exfalso. eapply lt_irrefl; eauto.
    + destruct (proj2 (Hin z) (or_intror Hz)) as [<- | ?]; [| assumption].
      exfalso. eapply lt_irrefl; eauto.
Qed.

Lemma unique_ext l1 l2 :
  (forall z, In z l1 <-> In z l2) -> unique cmp l1 = unique cmp l2.
Proof.
  intros H. apply sorted_ext; try apply unique_sorted.
  intros z. rewrite !In_unique. apply H.
Qed.

Lemma sorted_NoDup l : StronglySorted lt l -> NoDup l.
Proof.
  induction 1 as [| x l Hs IH Hx]; constructor; [| assumption].
  rewrite Forall_forall in Hx. intros Hin. eapply lt_irrefl; eauto.
Qed.

Lemma unique_NoDup l : NoDup (unique cmp l).
Proof. apply sorted_NoDup, unique_sorted. Qed.

Lemma index_of_nth_error x l :
  forall i, index_of cmp x l = Some i -> nth_error l i = Some x.
Proof.
  induction l as [| y l IH]; simpl; intros i H; [discriminate |].
  destruct (cmp x y) eqn:E.
  - injection H as <-. apply cmp_eq in E; subst; reflexivity.
  - destruct (index_of cmp x l); [| discriminate].
    injection H as <-. simpl; auto.
  - destruct (index_of cmp x l); [| discriminate].
    injection H as <-. simpl; auto.
Qed.

Lemma index_of_In x l : In x l -> exists i, index_of cmp x l = Some i.
Proof.
  induction l as [| y l IH]; simpl; intros H; [contradiction |].
  destruct (cmp x y) eqn:E; [eauto | |];
    (destruct H as [-> | H]; [rewrite cmp_refl in E; discriminate |];
     destruct (IH H) as [i ->]; simpl; eauto).
Qed.

Lemma index_of_None x l : ~ In x l -> index_of cmp x l = None.
Proof.
  induction l as [| y l IH]; simpl; intros H; [reflexivity |].
  destruct (cmp x y) eqn:E.
  - apply cmp_eq in E; subst; tauto.
  - rewrite IH by tauto; reflexivity.
  - rewrite IH by tauto; reflexivity.
Qed.
End UniqueFacts.

(** The order on text, and its extension that puts NaN last. *)

Lemma string_cmp_eq (x y : string) : String.compare x y = Eq <-> x = y.
Proof. apply String_as_OT.cmp_eq. Qed.

Lemma string_cmp_antisym (x y : string) :
  String.compare x y = CompOpp (String.compare y x).
Proof. apply String.compare_antisym. Qed.

Lemma string_cmp_trans (x y z : string) :
  String.compare x y = Lt -> String.compare y z = Lt ->
  String.compare x z = Lt.
Proof.
  intros H1 H2. apply String_as_OT.cmp_lt.
  apply String_as_OT.cmp_lt in H1, H2.
  eapply String_as_OT.lt_trans; eassumption.
Qed.

Section NanLast.
Context {A : Type} (cmp : A -> A -> comparison).
Hypothesis cmp_eq : forall x y, cmp x y = Eq <-> x = y.
Hypothesis cmp_antisym : forall x y, cmp x y = CompOpp (cmp y x).
Hypothesis cmp_trans :
  forall x y z, cmp x y = Lt -> cmp y z = Lt -> cmp x z = Lt.

Lemma nan_last_eq (a b : option A) : cmp_nan_last cmp a b = Eq <-> a = b.
Proof.
  destruct a as [x |], b as [y |]; simpl;
    try (split; [discriminate | congruence]); [| tauto].
  rewrite cmp_eq. split; congruence.
Qed.

Lemma nan_last_antisym (a b : option A) :
  cmp_nan_last cmp a b = CompOpp (cmp_nan_last cmp b a).
Proof. destruct a, b; simpl; auto. Qed.

Lemma nan_last_trans (a b c : option A) :
  cmp_nan_last cmp a b = Lt -> cmp_nan_last cmp b c = Lt ->
  cmp_nan_last cmp a c = Lt.
Proof.
  destruct a, b, c; simpl; try discriminate; auto. apply cmp_trans.
Qed.
End NanLast.

(** ** The label encoder on a text target *)

Lemma obj_unique_ext (l1 l2 : list (option string)) :
  (forall z, In z l1 <-> In z l2) ->
  unique (cmp_nan_last String.compare) l1 =
  unique (cmp_nan_last String.compare) l2.
Proof.
  apply unique_ext.
  - apply nan_last_eq, string_cmp_eq.
  - apply nan_last_antisym, string_cmp_antisym.
  - apply nan_last_trans, string_cmp_trans.
Qed.

Lemma obj_unique_two (y : list string) (a b : string) :
  String.compare a b = Lt -> In a y -> In b y ->
  (forall v, In v y -> v = a \/ v = b) ->
  unique (cmp_nan_last String.compare) (map Some y) = [Some a; Some b].
Proof.
  intros Hab Ha Hb Hy.
  rewrite (obj_unique_ext (map Some y) [Some a; Some b]).
  - simpl. rewrite Hab. reflexivity.
  - intros z; simpl; rewrite in_map_iff; split.
    + intros [v [<- Hv]]. destruct (Hy v Hv) as [-> | ->]; auto.
    + intros [<- | [<- | []]]; eauto.
Qed.

Lemma string_cmp_refl (x : string) : String.compare x x = Eq.
Proof. apply string_cmp_eq; reflexivity. Qed.

Lemma take_all_map {A B} (cs : list B) (f : A -> nat) (g : A -> B)
  (y : list A) :
  (forall v, In v y -> nth_error cs (f v) = Some (g v)) ->
  take_all cs (map f y) = Ok (map g y).
Proof.
  induction y as [| v y IH]; intros H; [reflexivity |].
  cbn [map take_all]. rewrite (H v (or_introl eq_refl)).
  rewrite IH by (intros; apply H; right; assumption). reflexivity.
Qed.

(** C2. On a target column with exactly two distinct text values [a < b]
    the fitted classes are [[a; b]]: [a] is encoded 0 and [b] is encoded 1,
    and 0 and 1 decode back to [a] and [b] (a bijection in lexicographic
    order); decoding the encoded vector gives the original column; any
    column with the same label set fits to the same encoder. *)
Theorem C2_label_mapping_bijection (y : list string) (a b : string)
  (Hab : String.compare a b = Lt) (Ha : In a y) (Hb : In b y)
  (Hy : forall v, In v y -> v = a \/ v = b) :
  let target := SObject (map Some y) in
  let le := fst (LabelEncoder_fit_transform target) in
  let y_encoded := snd (LabelEncoder_fit_transform target) in
  classes_ le = SObject [Some a; Some b] /\
  LabelEncoder_transform le (SObject [Some a; Some b]) = Ok [0; 1]%nat /\
  LabelEncoder_inverse_transform le [0; 1]%nat
    = Ok (SObject [Some a; Some b]) /\
  y_encoded = map (fun v => if String.eqb v a then 0 else 1)%nat y /\
  LabelEncoder_inverse_transform le y_encoded = Ok target /\
  forall y', (forall v, In v y' <-> In v y) ->
             fst (LabelEncoder_fit_transform (SObject (map Some y'))) = le.
Proof.
  assert (Hba : String.compare b a = Gt)
    by (rewrite string_cmp_antisym, Hab; reflexivity).
  assert (Hne : String.eqb b a = false).
  { apply String.eqb_neq. intros ->. rewrite string_cmp_refl in Hab.
    discriminate. }
  pose proof (obj_unique_two y a b Hab Ha Hb Hy) as Hu.
  assert (Hcodes :
    inverse_of (cmp_nan_last String.compare) [Some a; Some b] (map Some y)
    = map (fun v => if String.eqb v a then 0 else 1)%nat y).
  { unfold inverse_of. rewrite map_map. apply map_ext_in.
    intros v Hv. destruct (Hy v Hv) as [-> | ->]; simpl.
    - rewrite string_cmp_refl, String.eqb_refl; reflexivity.
    - rewrite Hba, string_cmp_refl, Hne; reflexivity. }
  cbv zeta. simpl. rewrite Hu, Hcodes.
  split; [reflexivity |]. split.
  { unfold LabelEncoder_transform; simpl.
    rewrite !string_cmp_refl, Hba; reflexivity. }
  repeat split.
  - unfold LabelEncoder_inverse_transform; simpl.
    rewrite (take_all_map _ _ Some); [reflexivity |].
    intros v Hv. destruct (Hy v Hv) as [-> | ->].
    + rewrite String.eqb_refl; reflexivity.
    + rewrite Hne; reflexivity.
  - intros y' Hy'. f_equal. f_equal. rewrite <- Hu.
    apply obj_unique_ext. intros z. rewrite !in_map_iff.
    split; intros [v [<- Hv]]; exists v; split; auto; apply Hy'; auto.
Qed.

Lemma C2_label_mapping_witness :
  let y := ["Yes"; "No"; "Yes"] in
  let le := fst (LabelEncoder_fit_transform (SObject (map Some y))) in
  classes_ le = SObject [Some "No"; Some "Yes"] /\
  LabelEncoder_inverse_transform le
    (snd (LabelEncoder_fit_transform (SObject (map Some y))))
  = Ok (SObject (map Some y)).
Proof.
  pose proof (C2_label_mapping_bijection ["Yes"; "No"; "Yes"] "No" "Yes")
    as H.
  cbv zeta in *.
  destruct H as [H1 [_ [_ [_ [H5 _]]]]].
  - reflexivity.
  - simpl; auto.
  - simpl; auto.
  - simpl; intros v [<- | [<- | [<- | []]]]; auto.
  - split; assumption.
Defined.

(** ** The script, step by step *)

Section ScriptFacts.
Variable parse_float : string -> option Q.
Variables raw_data_path preprocessed_X_path preprocessed_y_path
  preprocessor_path label_encoder_path : string.

Local Abbreviation run :=
  (automate_preprocessing parse_float raw_data_path preprocessed_X_path
     preprocessed_y_path preprocessor_path label_encoder_path).

(** The disk after a complete run that started from [d]. *)
Local Abbreviation written d le ct Xp ye :=
  ((preprocessed_y_path,
     CsvFile [("Churn_Encoded", SInt64 (map Z.of_nat ye))])
   :: (preprocessed_X_path, CsvFile Xp)
   :: (preprocessor_path, PreprocessorFile ct)
   :: (label_encoder_path, LabelEncoderFile le) :: d).

Lemma run_unfold (d : disk) :
  run d =
  match lookup_file d raw_data_path with
  | Some (CsvFile df) =>
      match clean_and_split parse_float df with
      | Ok (X, y) =>
          let le := fst (LabelEncoder_fit_transform y) in
          let ye := snd (LabelEncoder_fit_transform y) in
          let d1 := (label_encoder_path, LabelEncoderFile le) :: d in
          match ColumnTransformer_fit_transform
                  (numerical_cols X) (categorical_cols X) X with
          | Ok (ct, arr) =>
              match label_output X ct arr with
              | Ok Xp => (Ok (Xp, ye), written d le ct Xp ye)
              | Raise e => (Raise e, d1)
              end
          | Raise e => (Raise e, d1)
          end
      | Raise e => (Raise e, d)
      end
  | Some _ => (Raise (ParserError raw_data_path), d)
  | None => (Raise (FileNotFoundError raw_data_path), d)
  end.
Proof.
  unfold automate_preprocessing, bind, read_csv, lift.
  destruct (lookup_file d raw_data_path) as [[df | le | ct] |];
    try reflexivity.
  destruct (clean_and_split parse_float df) as [[X y] | e]; [| reflexivity].
  destruct (LabelEncoder_fit_transform y) as [le ye]; simpl.
  destruct (ColumnTransformer_fit_transform _ _ X) as [[ct arr] | e];
    [| reflexivity].
  destruct (label_output X ct arr) as [Xp | e]; reflexivity.
Qed.

(** What a successful run went through. *)
Lemma run_ok (d d' : disk) (Xp : DataFrame) (ye : list nat) :
  run d = (Ok (Xp, ye), d') ->
  exists df X y ct arr,
    lookup_file d raw_data_path = Some (CsvFile df) /\
    clean_and_split parse_float df = Ok (X, y) /\
    ye = snd (LabelEncoder_fit_transform y) /\
    ColumnTransformer_fit_transform
      (numerical_cols X) (categorical_cols X) X = Ok (ct, arr) /\
    label_output X ct arr = Ok Xp /\
    d' = written d (fst (LabelEncoder_fit_transform y)) ct Xp ye.
Proof.
  rewrite run_unfold.
  destruct (lookup_file d raw_data_path) as [[df | le | ct] |] eqn:E1;
    try discriminate.
  destruct (clean_and_split parse_float df) as [[X y] | e] eqn:E2;
    [| discriminate].
  cbv zeta.
  destruct (ColumnTransformer_fit_transform _ _ X) as [[ct arr] | e] eqn:E3;
    [| discriminate].
  destruct (label_output X ct arr) as [Xp' | e] eqn:E4; [| discriminate].
  intros H; injection H as <- <- <-.
  exists df, X, y, ct, arr. auto 10.
Qed.
End ScriptFacts.

(** ** C1: the target's cardinality *)

Lemma obj_index_of (vs : list (option string)) (v : option string) :
  In v vs ->
  exists i,
    index_of (cmp_nan_last String.compare) v
      (unique (cmp_nan_last String.compare) vs) = Some i /\
    nth_error (unique (cmp_nan_last String.compare) vs) i = Some v.
Proof.
  intros Hv.
  pose proof (nan_last_eq _ string_cmp_eq) as Heq.
  destruct (index_of_In _ Heq v (unique (cmp_nan_last String.compare) vs))
    as [i Hi].
  - apply In_unique; [assumption | assumption].
  - exists i; split; [assumption |].
    eapply index_of_nth_error; eassumption.
Qed.

Lemma obj_fit_transform_spec (vs : list (option string)) :
  let le := fst (LabelEncoder_fit_transform (SObject vs)) in
  let codes := snd (LabelEncoder_fit_transform (SObject vs)) in
  classes_ le = SObject (unique (cmp_nan_last String.compare) vs) /\
  Forall (fun c => c < n_classes le)%nat codes /\
  LabelEncoder_inverse_transform le codes = Ok (SObject vs).
Proof.
  cbv zeta; simpl. split; [reflexivity |]. split.
  - unfold inverse_of, n_classes; simpl.
    apply Forall_forall. intros c Hc.
    apply in_map_iff in Hc. destruct Hc as [v [<- Hv]].
    destruct (obj_index_of vs v Hv) as [i [-> Hi]].
    apply nth_error_Some. congruence.
  - unfold LabelEncoder_inverse_transform, inverse_of; simpl.
    rewrite (take_all_map _ _ (fun v => v)).
    + simpl. rewrite map_id. reflexivity.
    + intros v Hv. destruct (obj_index_of vs v Hv) as [i [-> Hi]].
      assumption.
Qed.

(** C1, as the code has it.  The run has no cardinality check: once the
    table is read and split, the label encoder is fitted and written to
    [label_encoder_path] whatever the number of distinct target values
    (so, in particular, for exactly two); no exception of the run is a
    [LabelCardinalityError]; and a text target with [k] distinct values is
    encoded by positions [0..k-1] in the sorted classes, which decode back
    to the column. *)
Theorem C1_label_encoder_any_cardinality
  (parse_float : string -> option Q)
  (raw_data_path preprocessed_X_path preprocessed_y_path
   preprocessor_path label_encoder_path : string)
  (d : disk) (df X : DataFrame) (y : series)
  (Hfile : lookup_file d raw_data_path = Some (CsvFile df))
  (Hsplit : clean_and_split parse_float df = Ok (X, y)) :
  let out := automate_preprocessing parse_float raw_data_path
               preprocessed_X_path preprocessed_y_path preprocessor_path
               label_encoder_path d in
  In (label_encoder_path,
      LabelEncoderFile (fst (LabelEncoder_fit_transform y))) (snd out) /\
  (forall e, fst out = Raise e -> exn_name e <> "LabelCardinalityError") /\
  (forall vs, y = SObject vs ->
     classes_ (fst (LabelEncoder_fit_transform y))
       = SObject (unique (cmp_nan_last String.compare) vs) /\
     Forall (fun c => c < n_classes (fst (LabelEncoder_fit_transform y)))%nat
            (snd (LabelEncoder_fit_transform y)) /\
     LabelEncoder_inverse_transform (fst (LabelEncoder_fit_transform y))
       (snd (LabelEncoder_fit_transform y)) = Ok y).
Proof.
  cbv zeta. rewrite run_unfold, Hfile, Hsplit. cbv zeta.
  split; [| split].
  - destruct (ColumnTransformer_fit_transform _ _ X) as [[ct arr] | e];
      [| simpl; auto].
    destruct (label_output X ct arr) as [Xp | e]; simpl; auto.
  - intros e _. destruct e; discriminate.
  - intros vs ->. apply obj_fit_transform_spec.
Qed.

Lemma C1_label_encoder_any_cardinality_witness :
  In ("label_encoder.joblib",
      LabelEncoderFile
        {| classes_ := SObject [Some "Maybe"; Some "No"; Some "Yes"] |})
     (snd (Sample.paths_run Sample.telco3)).
Proof.
  pose proof (C1_label_encoder_any_cardinality decimal_literal
                "raw.csv" "X.csv" "y.csv" "preprocessor.joblib"
                "label_encoder.joblib"
                [("raw.csv", CsvFile Sample.telco3)] Sample.telco3) as H.
  specialize (H _ _ eq_refl eq_refl).
  exact (proj1 H).
Defined.

(** C1 as the specification states it does not hold: the
    table [Sample.telco3] has three distinct target values, and the run
    returns normally after writing all four artifacts. *)
Lemma C1_three_labels_run_completes :
  ~ (forall (df : DataFrame) (vs : list (option string)),
       getitem df "Churn" = Ok (SObject vs) ->
       List.length (unique (cmp_nan_last String.compare) vs) <> 2%nat ->
       exists e,
         fst (Sample.paths_run df) = Raise e /\
         exn_name e = "LabelCardinalityError" /\
         snd (Sample.paths_run df) = [("raw.csv", CsvFile df)]).
Proof.
  intros H.
  destruct (H Sample.telco3 [Some "Yes"; Some "No"; Some "Maybe"])
    as [e [He _]].
  - reflexivity.
  - vm_compute. discriminate.
  - vm_compute in He. discriminate.
Qed.

(** ** One-hot encoding *)

Lemma row_of_onehot_block (cats col : list string) (k : nat) (v : string) :
  nth_error col k = Some v ->
  row_of (onehot_block cats col) k =
  map (fun c => if String.eqb v c then 1%Q else 0%Q) cats.
Proof.
  intros Hk. unfold row_of, onehot_block, indicator.
  rewrite map_map. apply map_ext. intros c.
  rewrite (nth_error_nth _ _ _ (map_nth_error _ _ _ Hk)). reflexivity.
Qed.

Lemma onehot_row_known (cats : list string) (v : string) :
  NoDup cats -> In v cats ->
  exists i,
    nth_error cats i = Some v /\
    one_hot_at (map (fun c => if String.eqb v c then 1%Q else 0%Q) cats) i.
Proof.
  intros Hnd Hin. destruct (In_nth_error _ _ Hin) as [i Hi].
  exists i. split; [assumption |]. split.
  - rewrite (map_nth_error _ _ _ Hi), String.eqb_refl. reflexivity.
  - intros j q Hj Hq. rewrite nth_error_map in Hq.
    destruct (nth_error cats j) as [c |] eqn:Ec; [| discriminate].
    injection Hq as <-.
    destruct (String.eqb v c) eqn:E; [| reflexivity].
    apply String.eqb_eq in E; subst c. exfalso. apply Hj.
    apply (proj1 (NoDup_nth_error cats) Hnd); [| congruence].
    apply nth_error_Some. congruence.
Qed.

Lemma onehot_row_unknown (cats : list string) (v : string) :
  ~ In v cats ->
  all_zero (map (fun c => if String.eqb v c then 1%Q else 0%Q) cats).
Proof.
  intros Hn. apply Forall_forall. intros q Hq.
  apply in_map_iff in Hq. destruct Hq as [c [<- Hc]].
  destruct (String.eqb v c) eqn:E; [| reflexivity].
  apply String.eqb_eq in E; subst; contradiction.
Qed.

Lemma string_unique_NoDup (l : list string) : NoDup (unique String.compare l).
Proof.
  apply unique_NoDup;
    [apply string_cmp_eq | apply string_cmp_antisym | apply string_cmp_trans].
Qed.

Lemma string_In_unique (l : list string) (z : string) :
  In z (unique String.compare l) <-> In z l.
Proof. apply In_unique, string_cmp_eq. Qed.

(** With [handle_unknown='ignore'] the encoder never raises on a cell. *)
Lemma onehot_blocks_ignore (cats : list (list string)) :
  forall X,
    onehot_blocks hu_ignore cats X =
    Ok (map (fun cx => onehot_block (fst cx) (snd cx)) (combine cats X)).
Proof.
  induction cats as [| cs cats IH]; intros [| col X]; simpl; try reflexivity.
  rewrite IH. reflexivity.
Qed.

Lemma check_n_features_ok {A} (n : nat) (X : list (list A)) :
  List.length X = n -> check_n_features n X = Ok tt.
Proof. intros <-. unfold check_n_features. rewrite Nat.eqb_refl; reflexivity. Qed.

(** The categories a column gets at fit time. *)
Local Abbreviation vocabulary fc :=
  (unique String.compare (fillna "missing" fc)).

Lemma categorical_fit_spec (Xfit : obj_array) (p : CategoricalPipeline)
  (out : array) :
  categorical_transformer_fit_transform Xfit = Ok (p, out) ->
  p = {| cat_imputer := {| fill_value := "missing";
                           imputer_n_features_in := List.length Xfit |};
         cat_onehot := {| ohe_handle_unknown := hu_ignore;
                          categories_ :=
                            map (fun fc => vocabulary fc) Xfit |} |}.
Proof.
  unfold categorical_transformer_fit_transform, ConstantImputer_fit,
    ConstantImputer_transform, OneHotEncoder_fit.
  intros H; inv_ok. simpl in *. inv_ok.
  rewrite map_map. reflexivity.
Qed.

Lemma categorical_transform_spec (Xfit Xnew : obj_array)
  (p : CategoricalPipeline) (out : array) :
  categorical_transformer_fit_transform Xfit = Ok (p, out) ->
  List.length Xnew = List.length Xfit ->
  categorical_transformer_transform p Xnew =
  Ok (List.concat
        (map (fun fx => onehot_block (vocabulary (fst fx))
                          (fillna "missing" (snd fx)))
             (combine Xfit Xnew))).
Proof.
  intros Hfit Hlen. rewrite (categorical_fit_spec _ _ _ Hfit).
  unfold categorical_transformer_transform, ConstantImputer_transform,
    OneHotEncoder_transform; simpl.
  rewrite check_n_features_ok by assumption; simpl.
  rewrite check_n_features_ok by (rewrite !length_map; assumption); simpl.
  rewrite onehot_blocks_ignore; simpl.
  do 2 f_equal.
  clear. revert Xnew.
  induction Xfit as [| fc Xfit IH]; intros [| col Xnew]; simpl;
    try reflexivity.
  rewrite IH; reflexivity.
Qed.

Lemma nth_error_combine_some {A B} (l1 : list A) :
  forall (l2 : list B) j a b,
    nth_error l1 j = Some a -> nth_error l2 j = Some b ->
    nth_error (combine l1 l2) j = Some (a, b).
Proof.
  induction l1 as [| x l1 IH]; intros [| y l2] [| j] a b H1 H2;
    simpl in *; try discriminate.
  - congruence.
  - auto.
Qed.

Lemma nth_error_same_length {A B} (l1 : list A) (l2 : list B) j b :
  List.length l2 = List.length l1 -> nth_error l2 j = Some b ->
  exists a, nth_error l1 j = Some a.
Proof.
  intros Hlen Hj.
  destruct (nth_error l1 j) as [a |] eqn:E; [eauto |].
  apply nth_error_None in E.
  assert (j < List.length l2)%nat by (apply nth_error_Some; congruence).
  lia.
Qed.

(** The output of [fit_transform] is the transform of the fit data. *)
Lemma categorical_fit_transform_output (Xfit : obj_array)
  (p : CategoricalPipeline) (out : array) :
  categorical_transformer_fit_transform Xfit = Ok (p, out) ->
  categorical_transformer_transform p Xfit = Ok out.
Proof.
  unfold categorical_transformer_fit_transform,
    categorical_transformer_transform, ConstantImputer_fit, OneHotEncoder_fit.
  intros H; inv_ok. simpl in *. inv_ok. simpl.
  rewrite Ha0; simpl. assumption.
Qed.

(** Row by row, the transform of the fitted categorical pipeline: the
    indicators of column [j] at row [k] compare the imputed cell with each
    category of the column's vocabulary. *)
Lemma categorical_transform_row (Xfit Xnew : obj_array)
  (p : CategoricalPipeline) (out : array)
  (j k : nat) (fc col : list (option string)) (v : option string) :
  categorical_transformer_fit_transform Xfit = Ok (p, out) ->
  nth_error Xfit j = Some fc ->
  nth_error Xnew j = Some col ->
  nth_error col k = Some v ->
  let c := match v with Some x => x | None => "missing" end in
  let blocks :=
    map (fun fx => onehot_block (vocabulary (fst fx))
                     (fillna "missing" (snd fx)))
        (combine Xfit Xnew) in
  nth_error (fillna (fill_value (cat_imputer p)) col) k = Some c /\
  nth_error (categories_ (cat_onehot p)) j = Some (vocabulary fc) /\
  exists block,
    nth_error blocks j = Some block /\
    List.length block = List.length (vocabulary fc) /\
    row_of block k =
    map (fun cat => if String.eqb c cat then 1%Q else 0%Q) (vocabulary fc).
Proof.
  intros Hfit Hfc Hj Hk c blocks.
  assert (Hc : nth_error (fillna "missing" col) k = Some c).
  { unfold fillna. rewrite (map_nth_error _ _ _ Hk). reflexivity. }
  rewrite (categorical_fit_spec _ _ _ Hfit); simpl.
  split; [assumption |].
  split; [rewrite (map_nth_error _ _ _ Hfc); reflexivity |].
  exists (onehot_block (vocabulary fc) (fillna "missing" col)).
  split.
  { subst blocks.
    rewrite (map_nth_error _ _ _ (nth_error_combine_some _ _ _ _ _ Hfc Hj)).
    reflexivity. }
  split; [unfold onehot_block; apply length_map |].
  apply row_of_onehot_block; assumption.
Qed.

(** C4. After fitting the categorical pipeline on [Xfit], transforming any
    table [Xnew] of the same width raises no error, and for every
    categorical column [j] and row [k] the indicators of that column have a
    single 1 (at the row's imputed category) and 0 elsewhere when the
    category is in the column's fitted vocabulary, and are all 0 when it is
    not.  On the fit data itself ([fit_transform], the output feature
    table) the category is always in the vocabulary. *)
Theorem C4_one_hot_indicators (Xfit Xnew : obj_array)
  (p : CategoricalPipeline) (out : array)
  (Hfit : categorical_transformer_fit_transform Xfit = Ok (p, out))
  (Hlen : List.length Xnew = List.length Xfit) :
  categorical_transformer_transform p Xfit = Ok out /\
  exists blocks,
    categorical_transformer_transform p Xnew = Ok (List.concat blocks) /\
    forall j col k v,
      nth_error Xnew j = Some col -> nth_error col k = Some v ->
      let c := match v with Some x => x | None => "missing" end in
      exists cats block,
        nth_error (categories_ (cat_onehot p)) j = Some cats /\
        nth_error blocks j = Some block /\
        List.length block = List.length cats /\
        (In c cats ->
         exists i, nth_error cats i = Some c /\
                   one_hot_at (row_of block k) i) /\
        (~ In c cats -> all_zero (row_of block k)) /\
        (nth_error Xfit j = Some col -> In c cats).
Proof.
  split; [apply (categorical_fit_transform_output _ _ _ Hfit) |].
  eexists. split; [apply (categorical_transform_spec _ _ _ _ Hfit Hlen) |].
  intros j col k v Hj Hk c.
  destruct (nth_error_same_length Xfit Xnew j col Hlen Hj) as [fc Hfc].
  destruct (categorical_transform_row Xfit Xnew p out j k fc col v
              Hfit Hfc Hj Hk) as [Hc [Hcats [block [Hb [Hl Hrow]]]]].
  exists (vocabulary fc), block.
  split; [assumption |]. split; [exact Hb |]. split; [assumption |].
  rewrite Hrow. split; [| split].
  - apply onehot_row_known, string_unique_NoDup.
  - apply onehot_row_unknown.
  - intros Hfc'. assert (fc = col) as -> by congruence.
    apply string_In_unique. unfold fillna.
    apply (nth_error_In _ k). rewrite (map_nth_error _ _ _ Hk). reflexivity.
Qed.

Lemma C4_one_hot_indicators_witness :
  let Xfit := [[Some "Yes"; Some "No"; None]] in
  let Xnew := [[Some "Maybe"; None]] in
  exists p out,
    categorical_transformer_fit_transform Xfit = Ok (p, out) /\
    categorical_transformer_transform p Xfit = Ok out /\
    exists blocks,
      categorical_transformer_transform p Xnew = Ok (List.concat blocks).
Proof.
  cbv zeta. do 2 eexists. split; [reflexivity |].
  destruct (C4_one_hot_indicators
              [[Some "Yes"; Some "No"; None]] [[Some "Maybe"; None]]
              _ _ eq_refl eq_refl) as [H1 [blocks [H2 _]]].
  split; [exact H1 |]. exists blocks. exact H2.
Defined.





(** ** Minimum, maximum and mean of a column *)

Lemma fold_Qmin_le (xs : list Q) (x0 y : Q) :
  In y (x0 :: xs) -> fold_right Qmin x0 xs <= y.
Proof.
  induction xs as [| x xs IH]; simpl; intros H.
  - destruct H as [<- | []]. apply Qle_refl.
  - destruct H as [<- | [<- | H]].
    + eapply Qle_trans; [apply Q.le_min_r | apply IH; simpl; auto].
    + apply Q.le_min_l.
    + eapply Qle_trans; [apply Q.le_min_r | apply IH; simpl; auto].
Qed.

Lemma fold_Qmax_ge (xs : list Q) (x0 y : Q) :
  In y (x0 :: xs) -> y <= fold_right Qmax x0 xs.
Proof.
  induction xs as [| x xs IH]; simpl; intros H.
  - destruct H as [<- | []]. apply Qle_refl.
  - destruct H as [<- | [<- | H]].
    + eapply Qle_trans; [apply IH; simpl; auto | apply Q.le_max_r].
    + apply Q.le_max_l.
    + eapply Qle_trans; [apply IH; simpl; auto | apply Q.le_max_r].
Qed.







Lemma Qlist_min_le_max (l : list Q) : Qlist_min l <= Qlist_max l.
Proof.
  destruct l as [| x xs]; [apply Qle_refl |].
  eapply Qle_trans; [apply fold_Qmin_le | apply fold_Qmax_ge]; simpl; eauto.
Qed.





(** ** Min-max scaling of one column *)







(** ** The numeric pipeline, column by column *)

(** What the fitted pipeline makes of a column at fit time. *)
Local Abbreviation scaled c :=
  (map (fun x => x * column_scale c + column_min c) c).

Local Abbreviation imputed X :=
  (flat_map (fun col => match nanmean col with
                        | Some m => [fillna m col]
                        | None => []
                        end) X).

Lemma impute_columns_nanmean (X : nan_array) :
  impute_columns (map nanmean X) X = imputed X.
Proof.
  induction X as [| col X IH]; simpl; [reflexivity |].
  destruct (nanmean col); simpl; rewrite IH; reflexivity.
Qed.

Lemma scale_columns_fit (X : array) :
  scale_columns (map column_scale X) (map column_min X) X
  = map (fun c => scaled c) X.
Proof.
  induction X as [| c X IH]; simpl; [reflexivity |].
  rewrite IH; reflexivity.
Qed.

Lemma numeric_fit_spec (X : nan_array) (p : NumericPipeline) (out : array) :
  numeric_transformer_fit_transform X = Ok (p, out) ->
  statistics_ (num_imputer p) = map nanmean X /\
  out = map (fun c => scaled c) (imputed X).
Proof.
  unfold numeric_transformer_fit_transform, MeanImputer_fit,
    MeanImputer_transform, MinMaxScaler_fit, MinMaxScaler_transform.
  intros H; inv_ok. simpl in *. inv_ok.
  split; [reflexivity |].
  rewrite impute_columns_nanmean. apply scale_columns_fit.
Qed.

Lemma nanmean_observed (col : list (option Q)) :
  observed col <> [] -> exists m, nanmean col = Some m.
Proof.
  unfold nanmean. destruct (observed col); [congruence | eauto].
Qed.


Lemma imputed_In (X : nan_array) (c : list Q) :
  In c (imputed X) ->
  exists col m, In col X /\ nanmean col = Some m /\ c = fillna m col.
Proof.
  rewrite in_flat_map. intros [col [Hcol Hc]].
  destruct (nanmean col) as [m |] eqn:E; [| contradiction].
  destruct Hc as [<- | []]. eauto.
Qed.




(** ** The column transformer *)

Lemma mapM_Forall2 {A B} (f : A -> result B) (l : list A) :
  forall r, mapM f l = Ok r -> Forall2 (fun a b => f a = Ok b) l r.
Proof.
  induction l as [| a l IH]; simpl; intros r H; inv_ok.
  - constructor.
  - constructor; auto.
Qed.

Lemma select_columns (X : DataFrame) (cols : list string) (ss : list series) :
  select X cols = Ok ss -> Forall2 (fun c s => getitem X c = Ok s) cols ss.
Proof. apply mapM_Forall2. Qed.

Lemma getitem_In (X : DataFrame) (c : string) (s : series) :
  getitem X c = Ok s -> In (c, s) X.
Proof.
  induction X as [| [c0 s0] X IH]; simpl; [discriminate |].
  destruct (String.eqb c0 c) eqn:E; intros H.
  - apply String.eqb_eq in E. injection H as ->. subst. auto.
  - auto.
Qed.

Lemma ColumnTransformer_fit_spec (num_cols cat_cols : list string)
  (X : DataFrame) (ct : ColumnTransformer) (arr : nan_array) :
  ColumnTransformer_fit_transform num_cols cat_cols X = Ok (ct, arr) ->
  exists out_num out_cat out_rem,
    fit_num X num_cols = Ok (ct_num ct, out_num) /\
    fit_cat X cat_cols = Ok (ct_cat ct, out_cat) /\
    mapM as_float (map snd (remainder_columns num_cols cat_cols X))
      = Ok out_rem /\
    ct_remainder_cols ct
      = frame_columns (remainder_columns num_cols cat_cols X) /\
    arr = to_nan_array out_num ++ to_nan_array out_cat ++ out_rem.
Proof.
  unfold ColumnTransformer_fit_transform.
  destruct (fit_num X num_cols) as [[pn out_num] | e]; simpl;
    [| discriminate].
  destruct (fit_cat X cat_cols) as [[pc out_cat] | e]; simpl;
    [| discriminate].
  destruct (mapM as_float _) as [out_rem | e]; simpl; [| discriminate].
  intros H; injection H as <- <-.
  exists out_num, out_cat, out_rem. simpl. auto 10.
Qed.

Lemma fit_cat_spec (X : DataFrame) (cat_cols : list string)
  (pc : CategoricalPipeline) (out_cat : array) :
  fit_cat X cat_cols = Ok (Some pc, out_cat) ->
  exists ss Xc,
    select X cat_cols = Ok ss /\
    mapM as_object ss = Ok Xc /\
    categorical_transformer_fit_transform Xc = Ok (pc, out_cat).
Proof.
  unfold fit_cat. destruct cat_cols as [| c cs]; [discriminate |].
  destruct (select X (c :: cs)) as [ss | e] eqn:E1; simpl; [| discriminate].
  destruct (mapM as_object ss) as [Xc | e] eqn:E2; simpl; [| discriminate].
  destruct (categorical_transformer_fit_transform Xc) as [[p out] | e] eqn:E;
    simpl; [| discriminate].
  intros H; injection H as <- <-. exists ss, Xc. auto.
Qed.

Lemma fit_num_spec (X : DataFrame) (num_cols : list string)
  (pn : option NumericPipeline) (out_num : array) :
  fit_num X num_cols = Ok (pn, out_num) ->
  (num_cols = [] /\ pn = None /\ out_num = []) \/
  exists ss Xn p,
    select X num_cols = Ok ss /\
    mapM as_float ss = Ok Xn /\
    pn = Some p /\
    numeric_transformer_fit_transform Xn = Ok (p, out_num).
Proof.
  unfold fit_num. destruct num_cols as [| c cs].
  - intros H; injection H as <- <-. auto.
  - destruct (select X (c :: cs)) as [ss | e] eqn:E1; simpl;
      [| discriminate].
    destruct (mapM as_float ss) as [Xn | e] eqn:E2; simpl; [| discriminate].
    destruct (numeric_transformer_fit_transform Xn) as [[p out] | e] eqn:E;
      simpl; [| discriminate].
    intros H; injection H as <- <-. right. exists ss, Xn, p. auto.
Qed.

Lemma label_output_spec (X : DataFrame) (ct : ColumnTransformer)
  (arr : nan_array) (Xp : DataFrame) :
  label_output X ct arr = Ok Xp ->
  exists pc,
    ct_cat ct = Some pc /\
    List.length (categorical_cols X)
      = List.length (categories_ (cat_onehot pc)) /\
    List.length arr =
      List.length (numerical_cols X ++
                   feature_names (categorical_cols X)
                     (categories_ (cat_onehot pc))) /\
    Xp = combine (numerical_cols X ++
                  feature_names (categorical_cols X)
                    (categories_ (cat_onehot pc)))
                 (map SFloat64 arr).
Proof.
  unfold label_output, get_feature_names_out, pd_DataFrame.
  destruct (ct_cat ct) as [pc |]; simpl; [| discriminate].
  destruct (List.length (categorical_cols X) =?
            List.length (categories_ (cat_onehot pc)))%nat eqn:E1;
    simpl; [| discriminate].
  match goal with
  | |- context [(?a =? ?b)%nat] => destruct (a =? b)%nat eqn:E2
  end; [| discriminate].
  intros H; inv_ok. apply Nat.eqb_eq in E1, E2.
  exists pc. auto.
Qed.

(** ** Row counts *)

(** Every column of the table has [n] rows. *)
Local Abbreviation frame_len n df :=
  (Forall (fun c : string * series => series_len (snd c) = n) df).

Local Abbreviation cols_len n X := (Forall (fun c => List.length c = n) X).

Lemma wf_frame_len (df : DataFrame) : wf_frame df -> frame_len (nrows df) df.
Proof. exact (fun H => H). Qed.

Lemma replace_len (old new : string) (s : series) :
  series_len (replace old new s) = series_len s.
Proof. destruct s; simpl; try reflexivity. apply length_map. Qed.

Lemma getitem_len (n : nat) (df : DataFrame) (c : string) (s : series) :
  frame_len n df -> getitem df c = Ok s -> series_len s = n.
Proof.
  intros Hn Hg. apply getitem_In in Hg.
  rewrite Forall_forall in Hn. apply (Hn _ Hg).
Qed.

Lemma setitem_len (n : nat) (df : DataFrame) (c : string) (s : series) :
  frame_len n df -> series_len s = n -> frame_len n (setitem df c s).
Proof.
  intros Hn Hs. induction Hn as [| [c0 s0] df H0 Hdf IH]; simpl.
  - repeat constructor; assumption.
  - destruct (String.eqb c0 c); constructor; auto.
Qed.

Lemma drop_len (n : nat) (df : DataFrame) (c : string) :
  forall df', frame_len n df -> drop df c = Ok df' -> frame_len n df'.
Proof.
  induction df as [| [c0 s0] df IH]; simpl; intros df' Hn H;
    [discriminate |].
  inversion Hn as [| ? ? H0 Hdf]; subst.
  destruct (String.eqb c0 c).
  - injection H as <-. assumption.
  - inv_ok. constructor; eauto.
Qed.

Lemma replace_in_len (n : nat) (old new : string) (df df' : DataFrame)
  (c : string) :
  frame_len n df -> replace_in old new df c = Ok df' -> frame_len n df'.
Proof.
  unfold replace_in. intros Hn H; inv_ok.
  apply setitem_len; [assumption |].
  rewrite replace_len. eapply getitem_len; eassumption.
Qed.

Lemma for_columns_len (n : nat) (old new : string) (cols : list string) :
  forall df df',
    frame_len n df ->
    for_columns (replace_in old new) cols df = Ok df' -> frame_len n df'.
Proof.
  induction cols as [| c cols IH]; simpl; intros df df' Hn H; inv_ok.
  - assumption.
  - eapply IH; [| eassumption]. eapply replace_in_len; eassumption.
Qed.

Lemma clean_rules_len (n : nat) (df df' : DataFrame) :
  frame_len n df -> clean_rules df = Ok df' -> frame_len n df'.
Proof.
  unfold clean_rules. intros Hn H; inv_ok.
  eapply replace_in_len; [| eassumption].
  eapply for_columns_len; eassumption.
Qed.

Lemma to_numeric_coerce_len (parse_float : string -> option Q) (s : series) :
  series_len (to_numeric_coerce parse_float s) = series_len s.
Proof. destruct s; simpl; try reflexivity. apply length_map. Qed.

Lemma clean_and_split_len (parse_float : string -> option Q) (n : nat)
  (df X : DataFrame) (y : series) :
  frame_len n df -> clean_and_split parse_float df = Ok (X, y) ->
  frame_len n X /\ series_len y = n.
Proof.
  unfold clean_and_split. intros Hn H.
  destruct (clean_rules df) as [df1 |] eqn:E1; simpl in H; [| discriminate].
  destruct (getitem df1 "TotalCharges") as [tc |] eqn:E2; simpl in H;
    [| discriminate].
  destruct (drop _ "customerID") as [df2 |] eqn:E3; simpl in H;
    [| discriminate].
  destruct (drop df2 "Churn") as [X' |] eqn:E4; simpl in H; [| discriminate].
  destruct (getitem df2 "Churn") as [y' |] eqn:E5; simpl in H;
    [| discriminate].
  injection H as <- <-.
  pose proof (clean_rules_len _ _ _ Hn E1) as H1.
  assert (H2 : frame_len n df2).
  { eapply drop_len; [| eassumption]. apply setitem_len; [assumption |].
    rewrite to_numeric_coerce_len. eapply getitem_len; eassumption. }
  split; [eapply drop_len | eapply getitem_len]; eassumption.
Qed.

Lemma fit_transform_codes_len (y : series) :
  List.length (snd (LabelEncoder_fit_transform y)) = series_len y.
Proof. destruct y; simpl; unfold inverse_of; apply length_map. Qed.

Lemma as_float_len (s : series) (col : list (option Q)) :
  as_float s = Ok col -> List.length col = series_len s.
Proof.
  destruct s; simpl; intros H; inv_ok; try discriminate;
    rewrite ?length_map; reflexivity.
Qed.

Lemma as_object_len (s : series) (col : list (option string)) :
  as_object s = Ok col -> List.length col = series_len s.
Proof. destruct s; simpl; intros H; inv_ok; try discriminate; reflexivity. Qed.

Lemma select_len (n : nat) (X : DataFrame) (cols : list string)
  (ss : list series) :
  frame_len n X -> select X cols = Ok ss ->
  Forall (fun s => series_len s = n) ss.
Proof.
  intros Hn H. apply select_columns in H.
  induction H; constructor; [| assumption].
  eapply getitem_len; eassumption.
Qed.

Lemma mapM_len {A} (n : nat) (f : series -> result (list A))
  (ss : list series) (Xs : list (list A)) :
  (forall s col, f s = Ok col -> List.length col = series_len s) ->
  Forall (fun s => series_len s = n) ss -> mapM f ss = Ok Xs ->
  cols_len n Xs.
Proof.
  intros Hf Hn H. apply mapM_Forall2 in H.
  induction H as [| s col ss Xs Hs Hss IH];
    [constructor |]; inversion_clear Hn as [| ? ? Hx Hl]; constructor.
  - rewrite (Hf _ _ Hs). exact Hx.
  - auto.
Qed.

Lemma numeric_out_len (n : nat) (Xn : nan_array) (p : NumericPipeline)
  (out : array) :
  cols_len n Xn -> numeric_transformer_fit_transform Xn = Ok (p, out) ->
  cols_len n out.
Proof.
  intros Hn Hfit. destruct (numeric_fit_spec _ _ _ Hfit) as [_ ->].
  rewrite Forall_forall in *. intros c Hc.
  apply in_map_iff in Hc. destruct Hc as [c0 [<- Hc0]].
  destruct (imputed_In _ _ Hc0) as [col [m [Hcol [_ ->]]]].
  unfold fillna. rewrite !length_map. auto.
Qed.

Lemma onehot_blocks_len (n : nat) (Xfit Xnew : obj_array) :
  cols_len n Xnew ->
  cols_len n
    (List.concat
       (map (fun fx => onehot_block (vocabulary (fst fx))
                         (fillna "missing" (snd fx)))
            (combine Xfit Xnew))).
Proof.
  intros Hn. rewrite Forall_forall in *. intros c Hc.
  apply in_concat in Hc. destruct Hc as [block [Hb Hc]].
  apply in_map_iff in Hb. destruct Hb as [[fc col] [<- Hfx]].
  apply in_combine_r in Hfx.
  unfold onehot_block in Hc. apply in_map_iff in Hc.
  destruct Hc as [cat [<- _]]. simpl.
  unfold indicator, fillna. rewrite !length_map. auto.
Qed.

Lemma categorical_out_len (n : nat) (Xc : obj_array)
  (p : CategoricalPipeline) (out : array) :
  cols_len n Xc -> categorical_transformer_fit_transform Xc = Ok (p, out) ->
  cols_len n out.
Proof.
  intros Hn Hfit.
  pose proof (categorical_fit_transform_output _ _ _ Hfit) as Ht.
  rewrite (categorical_transform_spec _ _ _ _ Hfit eq_refl) in Ht.
  injection Ht as <-. apply onehot_blocks_len; assumption.
Qed.

(** The width of the one-hot output is the size of the vocabularies,
    whatever table is transformed. *)
Lemma onehot_blocks_width (Xfit : obj_array) :
  forall Xnew,
    List.length Xnew = List.length Xfit ->
    List.length
      (List.concat
         (map (fun fx => onehot_block (vocabulary (fst fx))
                           (fillna "missing" (snd fx)))
              (combine Xfit Xnew)))
    = List.length (List.concat (map (fun fc => vocabulary fc) Xfit)).
Proof.
  induction Xfit as [| fc Xfit IH]; intros [| col Xnew] Hlen;
    simpl in *; try discriminate; [reflexivity |].
  rewrite !length_app, IH by lia.
  unfold onehot_block. rewrite length_map. reflexivity.
Qed.

Lemma feature_names_length (names : list string) :
  forall cats,
    List.length names = List.length cats ->
    List.length (feature_names names cats) = List.length (List.concat cats).
Proof.
  induction names as [| f names IH]; intros [| cs cats] Hlen;
    simpl in *; try discriminate; [reflexivity |].
  rewrite !length_app, length_map, IH by lia. reflexivity.
Qed.

Lemma categorical_transform_width (Xfit Xnew : obj_array)
  (p : CategoricalPipeline) (out out' : array) :
  categorical_transformer_fit_transform Xfit = Ok (p, out) ->
  categorical_transformer_transform p Xnew = Ok out' ->
  List.length out' = List.length (List.concat (categories_ (cat_onehot p))).
Proof.
  intros Hfit Ht.
  assert (Hlen : List.length Xnew = List.length Xfit).
  { revert Ht. rewrite (categorical_fit_spec _ _ _ Hfit).
    unfold categorical_transformer_transform, ConstantImputer_transform,
      check_n_features; simpl.
    destruct (List.length Xnew =? List.length Xfit)%nat eqn:E;
      [intros _; apply Nat.eqb_eq; assumption | discriminate]. }
  rewrite (categorical_transform_spec _ _ _ _ Hfit Hlen) in Ht.
  injection Ht as <-.
  rewrite (categorical_fit_spec _ _ _ Hfit); simpl.
  apply onehot_blocks_width; assumption.
Qed.

Lemma scale_columns_length (scale mins : list Q) :
  forall X,
    List.length mins = List.length scale ->
    List.length X = List.length scale ->
    List.length (scale_columns scale mins X) = List.length scale.
Proof.
  revert mins. induction scale as [| s scale IH];
    intros [| m mins] [| c X] H1 H2; simpl in *; try discriminate;
    [reflexivity |].
  rewrite IH by lia. reflexivity.
Qed.

Lemma numeric_transform_width (Xfit Xnew : nan_array) (p : NumericPipeline)
  (out out' : array) :
  numeric_transformer_fit_transform Xfit = Ok (p, out) ->
  numeric_transformer_transform p Xnew = Ok out' ->
  List.length out' = List.length (scale_ (num_scaler p)) /\
  List.length out = List.length (scale_ (num_scaler p)).
Proof.
  unfold numeric_transformer_fit_transform, numeric_transformer_transform,
    MeanImputer_fit, MinMaxScaler_fit, MinMaxScaler_transform.
  intros Hfit Ht.
  destruct (check_array "SimpleImputer" Xfit); simpl in Hfit;
    [| discriminate].
  destruct (MeanImputer_transform _ Xfit) as [Xi |]; simpl in Hfit;
    [| discriminate].
  destruct (check_array "MinMaxScaler" Xi); simpl in Hfit; [| discriminate].
  unfold check_n_features in Hfit.
  rewrite length_map, Nat.eqb_refl in Hfit. simpl in Hfit.
  injection Hfit as <- <-. simpl in *.
  destruct (MeanImputer_transform _ Xnew) as [Xi' |]; simpl in Ht;
    [| discriminate].
  unfold check_n_features in Ht.
  destruct (List.length Xi' =? List.length (map column_scale Xi))%nat eqn:E;
    simpl in Ht; [| discriminate].
  injection Ht as <-. apply Nat.eqb_eq in E. split.
  - apply scale_columns_length; [rewrite !length_map; reflexivity | exact E].
  - rewrite scale_columns_fit, !length_map. reflexivity.
Qed.

Lemma insert_uniq_not_nil {A} (cmp : A -> A -> comparison) (x : A)
  (l : list A) : insert_uniq cmp x l <> [].
Proof.
  destruct l as [| y l]; simpl; [discriminate |].
  destruct (cmp x y); discriminate.
Qed.

Lemma categorical_out_not_nil (Xc : obj_array) (p : CategoricalPipeline)
  (out : array) :
  categorical_transformer_fit_transform Xc = Ok (p, out) -> out <> [].
Proof.
  intros Hfit.
  pose proof (categorical_fit_transform_output _ _ _ Hfit) as Ht.
  rewrite (categorical_transform_spec _ _ _ _ Hfit eq_refl) in Ht.
  injection Ht as <-.
  revert Hfit. unfold categorical_transformer_fit_transform,
    ConstantImputer_fit, check_array.
  destruct Xc as [| [| v col] Xc]; try discriminate. intros _. simpl.
  destruct (insert_uniq String.compare
              match v with Some x => x | None => "missing" end
              (unique String.compare (fillna "missing" col)))
    eqn:E; [apply insert_uniq_not_nil in E; contradiction |].
  simpl. discriminate.
Qed.

Lemma labelled_len (n : nat) (names : list string) (arr : nan_array) :
  cols_len n arr ->
  frame_len n (combine names (map SFloat64 arr)).
Proof.
  intros Hn. rewrite Forall_forall in *. intros [name s] Hc.
  apply in_combine_r in Hc. apply in_map_iff in Hc.
  destruct Hc as [col [<- Hcol]]. simpl. auto.
Qed.

Lemma labelled_nrows (n : nat) (names : list string) (arr : nan_array) :
  cols_len n arr -> List.length arr = List.length names -> arr <> [] ->
  nrows (combine names (map SFloat64 arr)) = n.
Proof.
  intros Hn Hlen Hne.
  destruct arr as [| c arr]; [congruence |].
  destruct names as [| name names]; [discriminate |].
  simpl. inversion Hn; assumption.
Qed.

Lemma remainder_len (n : nat) (num_cols cat_cols : list string)
  (X : DataFrame) (out_rem : nan_array) :
  frame_len n X ->
  mapM as_float (map snd (remainder_columns num_cols cat_cols X))
    = Ok out_rem ->
  cols_len n out_rem.
Proof.
  intros Hn H. eapply mapM_len; [apply as_float_len | | eassumption].
  rewrite Forall_forall in *. intros s Hs.
  apply in_map_iff in Hs. destruct Hs as [c [<- Hc]].
  apply filter_In in Hc. apply Hn, Hc.
Qed.

Lemma to_nan_array_len (n : nat) (X : array) :
  cols_len n X -> cols_len n (to_nan_array X).
Proof.
  intros Hn. rewrite Forall_forall in *. intros c Hc.
  apply in_map_iff in Hc. destruct Hc as [c0 [<- Hc0]].
  rewrite length_map. auto.
Qed.

(** Every block of the fitted column transformer keeps the rows of [X]. *)
Lemma ColumnTransformer_out_len (n : nat) (num_cols cat_cols : list string)
  (X : DataFrame) (ct : ColumnTransformer) (arr : nan_array) :
  frame_len n X ->
  ColumnTransformer_fit_transform num_cols cat_cols X = Ok (ct, arr) ->
  cols_len n arr.
Proof.
  intros Hn Hfit.
  destruct (ColumnTransformer_fit_spec _ _ _ _ _ Hfit)
    as [out_num [out_cat [out_rem [Hnum [Hcat [Hrem [_ ->]]]]]]].
  apply Forall_app; split; [| apply Forall_app; split].
  - apply to_nan_array_len.
    destruct (fit_num_spec _ _ _ _ Hnum)
      as [[_ [_ ->]] | [ss [Xn [p [Hs [Hf [_ Hp]]]]]]]; [constructor |].
    eapply numeric_out_len; [| eassumption].
    eapply mapM_len; [apply as_float_len | | eassumption].
    eapply select_len; eassumption.
  - apply to_nan_array_len.
    destruct (ct_cat ct) as [pc |].
    + destruct (fit_cat_spec _ _ _ _ Hcat) as [ss [Xc [Hs [Hf Hp]]]].
      eapply categorical_out_len; [| eassumption].
      eapply mapM_len; [apply as_object_len | | eassumption].
      eapply select_len; eassumption.
    + revert Hcat. unfold fit_cat. destruct cat_cols.
      * intros H; injection H as <-. constructor.
      * destruct (select X _); simpl; [| discriminate].
        destruct (mapM as_object _); simpl; [| discriminate].
        destruct (categorical_transformer_fit_transform _) as [[? ?] |];
          discriminate.
  - eapply remainder_len; eassumption.
Qed.

(** ** The output table of a run *)

(** C5. When the run on a well-formed table [df] returns, the output
    feature table has the rows of [df]: its row count, the length of each of
    its columns and the length of the encoded target all equal [nrows df].
    Its width is fixed by the fit: the number of numeric columns plus the
    sizes of the fitted vocabularies, and the fitted categorical and numeric
    pipelines give outputs of their fitted widths on every table they
    transform. *)
Theorem C5_row_count_preserved
  (parse_float : string -> option Q)
  (raw_data_path preprocessed_X_path preprocessed_y_path
   preprocessor_path label_encoder_path : string)
  (d d' : disk) (df Xp : DataFrame) (ye : list nat)
  (Hfile : lookup_file d raw_data_path = Some (CsvFile df))
  (Hwf : wf_frame df)
  (Hrun : automate_preprocessing parse_float raw_data_path
            preprocessed_X_path preprocessed_y_path preprocessor_path
            label_encoder_path d = (Ok (Xp, ye), d')) :
  nrows Xp = nrows df /\
  (forall c, In c Xp -> series_len (snd c) = nrows df) /\
  List.length ye = nrows df /\
  exists X y ct pc,
    clean_and_split parse_float df = Ok (X, y) /\
    In (preprocessor_path, PreprocessorFile ct) d' /\
    ct_cat ct = Some pc /\
    List.length Xp =
      (List.length (numerical_cols X)
       + List.length (List.concat (categories_ (cat_onehot pc))))%nat /\
    (forall Xc out,
       categorical_transformer_transform pc Xc = Ok out ->
       List.length out
         = List.length (List.concat (categories_ (cat_onehot pc)))) /\
    (forall pn Xn out,
       ct_num ct = Some pn ->
       numeric_transformer_transform pn Xn = Ok out ->
       List.length out = List.length (scale_ (num_scaler pn))).
Proof.
  destruct (run_ok _ _ _ _ _ _ _ _ _ _ Hrun)
    as [df' [X [y [ct [arr [Hf [Hs [-> [Hct [Hlab ->]]]]]]]]]].
  assert (df' = df) as -> by congruence.
  destruct (clean_and_split_len _ _ _ _ _ (wf_frame_len _ Hwf) Hs)
    as [HX Hy].
  pose proof (ColumnTransformer_out_len _ _ _ _ _ _ HX Hct) as Harr.
  destruct (label_output_spec _ _ _ _ Hlab) as [pc [Hpc [Hcl [Hal ->]]]].
  destruct (ColumnTransformer_fit_spec _ _ _ _ _ Hct)
    as [out_num [out_cat [out_rem [Hnum [Hcat [Hrem [_ Earr]]]]]]].
  rewrite Hpc in Hcat.
  destruct (fit_cat_spec _ _ _ _ Hcat) as [ss [Xc [Hss [HXc Hcfit]]]].
  split; [| split; [| split]].
  - apply labelled_nrows; [assumption | assumption |].
    rewrite Earr. pose proof (categorical_out_not_nil _ _ _ Hcfit) as Hne.
    destruct out_cat; [congruence |].
    destruct (to_nan_array out_num); simpl; discriminate.
  - intros c Hc.
    pose proof (labelled_len _ (numerical_cols X ++
                    feature_names (categorical_cols X)
                      (categories_ (cat_onehot pc))) _ Harr) as Hl.
    rewrite Forall_forall in Hl. auto.
  - rewrite fit_transform_codes_len. assumption.
  - exists X, y, ct, pc. split; [assumption |].
    split; [simpl; auto |]. split; [assumption |]. split; [| split].
    + rewrite length_combine, length_map, Hal, Nat.min_id.
      rewrite length_app, feature_names_length by assumption. reflexivity.
    + intros Xc' out Ht.
      eapply categorical_transform_width; eassumption.
    + intros pn Xn out Hpn Ht. rewrite Hpn in Hnum.
      destruct (fit_num_spec _ _ _ _ Hnum)
        as [[_ [E _]] | [ss' [Xn' [p [_ [_ [E Hp]]]]]]]; [discriminate |].
      injection E as <-.
      apply (numeric_transform_width _ _ _ _ _ Hp Ht).
Qed.



Lemma map_fst_combine_same {A B} (l1 : list A) :
  forall (l2 : list B),
    List.length l1 = List.length l2 -> map fst (combine l1 l2) = l1.
Proof.
  induction l1 as [| a l1 IH]; intros [| b l2] H; simpl in *;
    try discriminate; [reflexivity |].
  rewrite IH by lia. reflexivity.
Qed.



(** ** Columns the labelling step does not account for *)

(** [pd.to_numeric(..., errors='coerce')] raises nothing: a text cell becomes
    what the parser makes of it, a missing cell when it is not a number. *)
Lemma to_numeric_coerce_cell (parse_float : string -> option Q)
  (vs : list (option string)) (k : nat) (s : string) :
  nth_error vs k = Some (Some s) ->
  exists r,
    to_numeric_coerce parse_float (SObject vs) = SFloat64 r /\
    nth_error r k = Some (parse_float s).
Proof.
  intros Hk. eexists. split; [reflexivity |].
  rewrite (map_nth_error _ _ _ Hk). reflexivity.
Qed.

(** The labels of lines 70-73 cover the numeric and the one-hot columns
    only: when a column is passed through, the output table can be built
    only if as many numeric columns were dropped by the imputer. *)
Lemma passthrough_needs_dropped_column (X : DataFrame)
  (ct : ColumnTransformer) (arr : nan_array) (Xp : DataFrame) :
  ColumnTransformer_fit_transform (numerical_cols X) (categorical_cols X) X
    = Ok (ct, arr) ->
  label_output X ct arr = Ok Xp ->
  exists out_num,
    fit_num X (numerical_cols X) = Ok (ct_num ct, out_num) /\
    (List.length out_num + List.length (ct_remainder_cols ct)
     = List.length (numerical_cols X))%nat.
Proof.
  intros Hct Hlab.
  destruct (label_output_spec _ _ _ _ Hlab) as [pc [Hpc [Hcl [Hal _]]]].
  destruct (ColumnTransformer_fit_spec _ _ _ _ _ Hct)
    as [out_num [out_cat [out_rem [Hnum [Hcat [Hrem [Erem Earr]]]]]]].
  rewrite Hpc in Hcat.
  destruct (fit_cat_spec _ _ _ _ Hcat) as [ss [Xc [Hss [HXc Hcfit]]]].
  exists out_num. split; [assumption |].
  assert (Hw : List.length out_cat
               = List.length (feature_names (categorical_cols X)
                                (categories_ (cat_onehot pc)))).
  { rewrite feature_names_length by assumption.
    eapply categorical_transform_width; [eassumption |].
    eapply categorical_fit_transform_output; eassumption. }
  assert (Hr : List.length out_rem = List.length (ct_remainder_cols ct)).
  { rewrite Erem. unfold frame_columns. rewrite length_map.
    apply mapM_Forall2 in Hrem. apply Forall2_length in Hrem.
    rewrite length_map in Hrem. symmetry. assumption. }
  subst arr. unfold to_nan_array in Hal.
  rewrite !length_app, !length_map in Hal. lia.
Qed.

(** C7, at an input where it fails.  In [Sample.telco_blank] no cell of
    [TotalCharges] is a number: every cell is coerced to a missing value
    without error, the mean imputer then drops the column, the array has one
    column less than the labels of line 71, and the run aborts with
    [ValueError] after the label encoder has been written. *)
Theorem C7_all_unparseable_run_aborts :
  to_numeric_coerce decimal_literal (SObject [Some " "; Some " "; Some " "])
    = SFloat64 [None; None; None] /\
  (exists p out,
     numeric_transformer_fit_transform
       [[Some 1; Some 34; Some 2]; [None; None; None]] = Ok (p, out) /\
     List.length out = 1%nat) /\
  fst (Sample.paths_run Sample.telco_blank)
    = Raise (ValueError "Shape of passed values does not match the columns") /\
  map fst (snd (Sample.paths_run Sample.telco_blank))
    = ["label_encoder.joblib"; "raw.csv"].
Proof.
  split; [reflexivity |]. split.
  - do 2 eexists. split; [vm_compute; reflexivity | reflexivity].
  - split; vm_compute; reflexivity.
Qed.

(** C9, at an input where it fails.  [Sample.telco_bool] has a [bool]
    column, which is neither numeric nor categorical: the column transformer
    passes it through as the last column of the array, but the labels of
    line 71 do not count it, and the run aborts with [ValueError] before
    the output table exists. *)
Theorem C9_passthrough_column_run_aborts :
  (exists X y ct arr,
     clean_and_split decimal_literal Sample.telco_bool = Ok (X, y) /\
     ColumnTransformer_fit_transform
       (numerical_cols X) (categorical_cols X) X = Ok (ct, arr) /\
     ct_remainder_cols ct = ["PaperlessBilling"] /\
     last arr [] = [Some 1; Some 0; Some 1] /\
     exists msg, label_output X ct arr = Raise (ValueError msg)) /\
  fst (Sample.paths_run Sample.telco_bool)
    = Raise (ValueError "Shape of passed values does not match the columns") /\
  map fst (snd (Sample.paths_run Sample.telco_bool))
    = ["label_encoder.joblib"; "raw.csv"].
Proof.
  split; [| split; vm_compute; reflexivity].
  do 4 eexists.
  split; [vm_compute; reflexivity |].
  split; [vm_compute; reflexivity |].
  split; [reflexivity |]. split; [reflexivity |].
  eexists. vm_compute. reflexivity.
Qed.

(** ** The theorems at concrete runs *)

Lemma telco_wf : wf_frame Sample.telco.
Proof. unfold wf_frame. repeat constructor. Qed.

Lemma C5_row_count_preserved_witness :
  exists Xp ye d',
    Sample.paths_run Sample.telco = (Ok (Xp, ye), d') /\
    nrows Xp = 3%nat /\ List.length ye = 3%nat.
Proof.
  destruct (Sample.paths_run Sample.telco) as [[[Xp ye] | e] d'] eqn:E;
    [| vm_compute in E; discriminate].
  exists Xp, ye, d'. split; [reflexivity |].
  destruct (C5_row_count_preserved decimal_literal
              "raw.csv" "X.csv" "y.csv" "preprocessor.joblib"
              "label_encoder.joblib"
              [("raw.csv", CsvFile Sample.telco)] d' Sample.telco Xp ye
              eq_refl telco_wf E) as [H1 [_ [H3 _]]].
  split; assumption.
Defined.


(** ** Tables on which the run returns *)

Lemma getitem_NoDup (X : DataFrame) (c : string) (s : series) :
  NoDup (frame_columns X) -> In (c, s) X -> getitem X c = Ok s.
Proof.
  unfold frame_columns.
  induction X as [| [c0 s0] X IH]; simpl; intros Hnd Hin; [contradiction |].
  inversion Hnd as [| ? ? Hn0 Hnd']; subst.
  destruct (String.eqb c0 c) eqn:E.
  - apply String.eqb_eq in E; subst c0.
    destruct Hin as [Heq | Hin]; [congruence |].
    exfalso. apply Hn0. apply (in_map fst) in Hin. exact Hin.
  - destruct Hin as [Heq | Hin]; [| auto].
    injection Heq as -> ->. rewrite String.eqb_refl in E. discriminate.
Qed.

Lemma mapM_map {A B} (f : A -> result B) (g : A -> B) (l : list A) :
  (forall x, In x l -> f x = Ok (g x)) -> mapM f l = Ok (map g l).
Proof.
  induction l as [| a l IH]; simpl; intros H; [reflexivity |].
  rewrite (H a (or_introl eq_refl)); simpl.
  rewrite IH by auto. reflexivity.
Qed.

Lemma select_sublist (X l : DataFrame) :
  NoDup (frame_columns X) -> incl l X ->
  select X (map fst l) = Ok (map snd l).
Proof.
  intros Hnd Hincl. unfold select.
  induction l as [| [c s] l IH]; simpl; [reflexivity |].
  rewrite (getitem_NoDup X c s Hnd) by (apply Hincl; simpl; auto). simpl.
  rewrite IH by (intros x Hx; apply Hincl; simpl; auto). reflexivity.
Qed.

Lemma check_array_ok {A} (estimator : string) (X : list (list A)) (n : nat) :
  X <> [] -> cols_len n X -> (0 < n)%nat -> check_array estimator X = Ok tt.
Proof.
  intros Hne Hn Hpos. destruct X as [| [| x col] X]; [congruence | | reflexivity].
  inversion Hn; subst. simpl in *. lia.
Qed.

Lemma imputed_all_observed (X : nan_array) :
  Forall (fun col => observed col <> []) X ->
  imputed X = map (fun col => match nanmean col with
                              | Some m => fillna m col
                              | None => []
                              end) X.
Proof.
  induction 1 as [| col X Hc HX IH]; simpl; [reflexivity |].
  destruct (nanmean_observed col Hc) as [m ->]. simpl. rewrite IH.
  reflexivity.
Qed.

Lemma numeric_fit_returns (n : nat) (Xn : nan_array) :
  Xn <> [] -> cols_len n Xn -> (0 < n)%nat ->
  Forall (fun col => observed col <> []) Xn ->
  exists p out,
    numeric_transformer_fit_transform Xn = Ok (p, out) /\
    List.length out = List.length Xn.
Proof.
  intros Hne Hn Hpos Hobs.
  unfold numeric_transformer_fit_transform, MeanImputer_fit,
    MeanImputer_transform, MinMaxScaler_fit, MinMaxScaler_transform.
  rewrite (check_array_ok _ _ n Hne Hn Hpos). simpl.
  rewrite check_n_features_ok by (rewrite length_map; reflexivity). simpl.
  rewrite impute_columns_nanmean, (imputed_all_observed _ Hobs).
  rewrite (check_array_ok _ _ n).
  - simpl. rewrite check_n_features_ok by (rewrite !length_map; reflexivity).
    simpl. do 2 eexists. split; [reflexivity |].
    rewrite scale_columns_fit, !length_map. reflexivity.
  - destruct Xn; [congruence | discriminate].
  - rewrite Forall_forall in *. intros c Hc.
    apply in_map_iff in Hc. destruct Hc as [col [<- Hcol]].
    destruct (nanmean_observed col (Hobs _ Hcol)) as [m ->].
    unfold fillna. rewrite length_map. auto.
  - assumption.
Qed.

Lemma categorical_fit_returns (n : nat) (Xc : obj_array) :
  Xc <> [] -> cols_len n Xc -> (0 < n)%nat ->
  exists p out, categorical_transformer_fit_transform Xc = Ok (p, out).
Proof.
  intros Hne Hn Hpos.
  unfold categorical_transformer_fit_transform, ConstantImputer_fit,
    ConstantImputer_transform, OneHotEncoder_fit, OneHotEncoder_transform.
  rewrite (check_array_ok _ _ n Hne Hn Hpos). simpl.
  rewrite check_n_features_ok by reflexivity. simpl.
  rewrite (check_array_ok _ _ n).
  - simpl. rewrite check_n_features_ok by (rewrite !length_map; reflexivity).
    simpl. rewrite onehot_blocks_ignore. simpl. eauto.
  - destruct Xc; [congruence | discriminate].
  - rewrite Forall_forall in *. intros c Hc.
    apply in_map_iff in Hc. destruct Hc as [col [<- Hcol]].
    unfold fillna. rewrite length_map. auto.
  - assumption.
Qed.

Lemma fit_num_nonempty (X : DataFrame) (cols : list string) :
  cols <> [] ->
  fit_num X cols =
  (let? ss := select X cols in
   let? Xn := mapM as_float ss in
   let? (p, out) := numeric_transformer_fit_transform Xn in
   Ok (Some p, out)).
Proof. destruct cols; [congruence | reflexivity]. Qed.

Lemma fit_cat_nonempty (X : DataFrame) (cols : list string) :
  cols <> [] ->
  fit_cat X cols =
  (let? ss := select X cols in
   let? Xc := mapM as_object ss in
   let? (p, out) := categorical_transformer_fit_transform Xc in
   Ok (Some p, out)).
Proof. destruct cols; [congruence | reflexivity]. Qed.

Lemma map_not_nil {A B} (f : A -> B) (l : list A) : l <> [] -> map f l <> [].
Proof. destruct l; [congruence | discriminate]. Qed.

Lemma fit_num_returns (n : nat) (X : DataFrame) :
  NoDup (frame_columns X) -> frame_len n X -> (0 < n)%nat ->
  (forall c vs, In (c, SFloat64 vs) X -> observed vs <> []) ->
  exists pn out_num,
    fit_num X (numerical_cols X) = Ok (pn, out_num) /\
    List.length out_num = List.length (numerical_cols X).
Proof.
  intros Hnd Hn Hpos Hobs.
  unfold numerical_cols, frame_columns.
  set (l := select_dtypes [int64; float64] X).
  assert (Hincl : incl l X) by (subst l; apply incl_filter).
  assert (Hnum : forall c s, In (c, s) l ->
                   (exists vs, s = SInt64 vs) \/ (exists vs, s = SFloat64 vs)).
  { intros c s Hin. subst l. apply filter_In in Hin. destruct Hin as [_ Hf].
    destruct s; simpl in Hf; try discriminate; eauto. }
  clearbody l.
  destruct l as [| c0 l']; [simpl; eauto |].
  set (l := c0 :: l') in *.
  assert (Hne : l <> []) by discriminate.
  clearbody l.
  set (g := fun s => match as_float s with Ok col => col | Raise _ => [] end).
  assert (Hconv : mapM as_float (map snd l) = Ok (map g (map snd l))).
  { apply mapM_map. intros s Hs. apply in_map_iff in Hs.
    destruct Hs as [[c s'] [<- Hin]]. simpl.
    destruct (Hnum _ _ Hin) as [[vs ->] | [vs ->]]; reflexivity. }
  rewrite Forall_forall in Hn.
  destruct (numeric_fit_returns n (map g (map snd l))) as [p [out [Hfit Hlen]]].
  - do 2 apply map_not_nil. assumption.
  - rewrite Forall_forall. intros col Hcol.
    rewrite map_map in Hcol. apply in_map_iff in Hcol.
    destruct Hcol as [[c s] [<- Hin]]. simpl.
    specialize (Hn _ (Hincl _ Hin)). simpl in Hn.
    destruct (Hnum _ _ Hin) as [[vs ->] | [vs ->]]; subst g; simpl in *;
      rewrite ?length_map; assumption.
  - assumption.
  - rewrite Forall_forall. intros col Hcol.
    rewrite map_map in Hcol. apply in_map_iff in Hcol.
    destruct Hcol as [[c s] [<- Hin]]. simpl.
    destruct (Hnum _ _ Hin) as [[vs ->] | [vs ->]]; subst g; simpl.
    + specialize (Hn _ (Hincl _ Hin)).
      simpl in Hn. destruct vs; simpl in *; [lia | discriminate].
    + apply (Hobs c). apply Hincl. assumption.
  - exists (Some p), out. split.
    + rewrite fit_num_nonempty by (apply map_not_nil; assumption).
      rewrite (select_sublist X l Hnd Hincl). simpl.
      rewrite Hconv. simpl. rewrite Hfit. reflexivity.
    + rewrite Hlen, !length_map. reflexivity.
Qed.

Lemma fit_cat_returns (n : nat) (X : DataFrame) :
  NoDup (frame_columns X) -> frame_len n X -> (0 < n)%nat ->
  categorical_cols X <> [] ->
  exists pc out_cat Xc,
    fit_cat X (categorical_cols X) = Ok (Some pc, out_cat) /\
    categorical_transformer_fit_transform Xc = Ok (pc, out_cat) /\
    List.length Xc = List.length (categorical_cols X).
Proof.
  intros Hnd Hn Hpos Hne.
  unfold categorical_cols, frame_columns in *.
  set (l := select_dtypes [object] X) in *.
  assert (Hincl : incl l X) by (subst l; apply incl_filter).
  assert (Hobj : forall c s, In (c, s) l -> exists vs, s = SObject vs).
  { intros c s Hin. subst l. apply filter_In in Hin. destruct Hin as [_ Hf].
    destruct s; simpl in Hf; try discriminate; eauto. }
  clearbody l.
  set (g := fun s => match as_object s with Ok col => col | Raise _ => [] end).
  assert (Hconv : mapM as_object (map snd l) = Ok (map g (map snd l))).
  { apply mapM_map. intros s Hs. apply in_map_iff in Hs.
    destruct Hs as [[c s'] [<- Hin]]. simpl.
    destruct (Hobj _ _ Hin) as [vs ->]; reflexivity. }
  rewrite Forall_forall in Hn.
  destruct (categorical_fit_returns n (map g (map snd l))) as [p [out Hfit]].
  - do 2 apply map_not_nil. intros ->. apply Hne. reflexivity.
  - rewrite Forall_forall. intros col Hcol.
    rewrite map_map in Hcol. apply in_map_iff in Hcol.
    destruct Hcol as [[c s] [<- Hin]]. simpl.
    specialize (Hn _ (Hincl _ Hin)). simpl in Hn.
    destruct (Hobj _ _ Hin) as [vs ->]; subst g; simpl in *; assumption.
  - assumption.
  - exists p, out, (map g (map snd l)). split; [| split].
    + rewrite fit_cat_nonempty by assumption.
      rewrite (select_sublist X l Hnd Hincl). simpl.
      rewrite Hconv. simpl. rewrite Hfit. reflexivity.
    + assumption.
    + rewrite !length_map. reflexivity.
Qed.




(** * Further properties of the script *)

(** ** Columns read by name *)

Lemma getitem_ok_In (df : DataFrame) (c : string) (s : series) :
  getitem df c = Ok s -> In c (frame_columns df).
Proof.
  intros H. apply getitem_In in H. apply (in_map fst) in H. exact H.
Qed.

Lemma getitem_raise (df : DataFrame) (c : string) (e : exn) :
  getitem df c = Raise e -> e = KeyError c /\ ~ In c (frame_columns df).
Proof.
  induction df as [| [c0 s0] df IH]; simpl.
  - intros H; injection H as <-. auto.
  - destruct (String.eqb c0 c) eqn:E; [discriminate |].
    intros H. destruct (IH H) as [-> Hn]. split; [reflexivity |].
    apply String.eqb_neq in E. intros [Hc | Hc]; auto.
Qed.

Lemma setitem_columns (df : DataFrame) (c : string) (s s0 : series) :
  getitem df c = Ok s0 ->
  frame_columns (setitem df c s) = frame_columns df.
Proof.
  unfold frame_columns.
  induction df as [| [c1 s1] df IH]; simpl; [discriminate |].
  destruct (String.eqb c1 c); simpl; intros H; [reflexivity |].
  rewrite IH by assumption. reflexivity.
Qed.

Lemma drop_raise (df : DataFrame) (c : string) (e : exn) :
  drop df c = Raise e -> e = KeyError c /\ ~ In c (frame_columns df).
Proof.
  induction df as [| [c0 s0] df IH]; simpl.
  - intros H; injection H as <-. auto.
  - destruct (String.eqb c0 c) eqn:E; [discriminate |].
    destruct (drop df c) as [r | e'] eqn:Ed; simpl; [discriminate |].
    intros H; injection H as <-. destruct (IH eq_refl) as [-> Hn].
    split; [reflexivity |].
    apply String.eqb_neq in E. intros [Hc | Hc]; auto.
Qed.

Lemma drop_ok (df : DataFrame) (c : string) :
  forall df',
    drop df c = Ok df' ->
    In c (frame_columns df) /\
    (forall c', c' <> c -> getitem df' c' = getitem df c') /\
    (forall c', c' <> c ->
                (In c' (frame_columns df') <-> In c' (frame_columns df))).
Proof.
  induction df as [| [c0 s0] df IH]; simpl; intros df' H; [discriminate |].
  destruct (String.eqb c0 c) eqn:E.
  - injection H as <-. apply String.eqb_eq in E; subst c0.
    split; [auto |]. split.
    + intros c' Hc. apply not_eq_sym, String.eqb_neq in Hc.
      rewrite Hc. reflexivity.
    + intros c' Hc. split; [auto | intros [? | ?]; congruence || assumption].
  - destruct (drop df c) as [r |] eqn:Ed; simpl in H; [| discriminate].
    injection H as <-. destruct (IH r eq_refl) as [H1 [H2 H3]].
    split; [auto |]. split.
    + intros c' Hc. simpl. rewrite H2 by assumption. reflexivity.
    + intros c' Hc. simpl. rewrite H3 by assumption. reflexivity.
Qed.

Lemma drop_NoDup (df : DataFrame) (c : string) :
  forall df',
    drop df c = Ok df' -> NoDup (frame_columns df) ->
    frame_columns df'
      = filter (fun x => negb (String.eqb x c)) (frame_columns df) /\
    NoDup (frame_columns df').
Proof.
  unfold frame_columns.
  induction df as [| [c0 s0] df IH]; simpl; intros df' H Hnd;
    [discriminate |].
  inversion Hnd as [| ? ? Hn0 Hnd']; subst.
  destruct (String.eqb c0 c) eqn:E.
  - injection H as <-. simpl. split; [| assumption].
    apply String.eqb_eq in E; subst c0.
    symmetry. clear IH Hnd Hnd'.
    induction df as [| [c1 s1] df IH]; simpl; [reflexivity |].
    simpl in Hn0. destruct (String.eqb c1 c) eqn:E1.
    + apply String.eqb_eq in E1. tauto.
    + simpl. rewrite IH by tauto. reflexivity.
  - destruct (drop df c) as [r |] eqn:Ed; simpl in H; [| discriminate].
    injection H as <-. destruct (IH r eq_refl Hnd') as [H1 H2].
    simpl. split; [rewrite H1; reflexivity |].
    constructor; [| assumption].
    rewrite H1. intros Hin. apply filter_In in Hin. tauto.
Qed.

Lemma replace_in_ok (old new : string) (df df' : DataFrame) (c : string) :
  replace_in old new df c = Ok df' ->
  In c (frame_columns df) /\
  frame_columns df' = frame_columns df /\
  (exists s, getitem df c = Ok s /\ getitem df' c = Ok (replace old new s)) /\
  (forall c', c' <> c -> getitem df' c' = getitem df c').
Proof.
  unfold replace_in. destruct (getitem df c) as [s |] eqn:E; simpl;
    [| discriminate].
  intros H; injection H as <-.
  split; [eapply getitem_ok_In; eassumption |].
  split; [eapply setitem_columns; eassumption |].
  split.
  - exists s. split; [reflexivity |].
    rewrite getitem_setitem, String.eqb_refl. reflexivity.
  - intros c' Hc. rewrite getitem_setitem.
    apply not_eq_sym, String.eqb_neq in Hc. rewrite Hc. reflexivity.
Qed.

Lemma replace_in_raise (old new : string) (df : DataFrame) (c : string)
  (e : exn) :
  replace_in old new df c = Raise e ->
  e = KeyError c /\ ~ In c (frame_columns df).
Proof.
  unfold replace_in. destruct (getitem df c) as [s |] eqn:E; simpl;
    [discriminate |].
  intros H; injection H as <-. apply getitem_raise. assumption.
Qed.

Lemma for_columns_raise (old new : string) (cols : list string) :
  forall df e,
    for_columns (replace_in old new) cols df = Raise e ->
    exists c, In c cols /\ e = KeyError c /\ ~ In c (frame_columns df).
Proof.
  induction cols as [| c cols IH]; simpl; intros df e H; [discriminate |].
  destruct (replace_in old new df c) as [df1 |] eqn:E; simpl in H.
  - destruct (IH _ _ H) as [c' [Hin [-> Hn]]].
    exists c'. split; [auto |]. split; [reflexivity |].
    destruct (replace_in_ok _ _ _ _ _ E) as [_ [En _]]. rewrite <- En.
    assumption.
  - injection H as <-. destruct (replace_in_raise _ _ _ _ _ E) as [-> Hn].
    exists c. auto.
Qed.

Lemma for_columns_ok (old new : string) (cols : list string) :
  forall df df',
    for_columns (replace_in old new) cols df = Ok df' ->
    frame_columns df' = frame_columns df /\
    (forall c, In c cols -> In c (frame_columns df)) /\
    (forall c', ~ In c' cols -> getitem df' c' = getitem df c').
Proof.
  induction cols as [| c cols IH]; simpl; intros df df' H.
  - injection H as <-. split; [reflexivity |].
    split; [contradiction | reflexivity].
  - destruct (replace_in old new df c) as [df1 |] eqn:E; simpl in H;
      [| discriminate].
    destruct (replace_in_ok _ _ _ _ _ E) as [Hc [En [_ Ho]]].
    destruct (IH _ _ H) as [En' [Hall Ho']].
    split; [congruence |]. split.
    + intros c' [<- | Hin]; [assumption |]. rewrite <- En. auto.
    + intros c' Hn. rewrite Ho' by tauto. apply Ho. intros ->. tauto.
Qed.

Lemma clean_rules_raise (df : DataFrame) (e : exn) :
  clean_rules df = Raise e ->
  exists c, In c (service_columns ++ ["MultipleLines"]) /\
            e = KeyError c /\ ~ In c (frame_columns df).
Proof.
  unfold clean_rules.
  destruct (for_columns _ service_columns df) as [df1 |] eqn:E; cbn [rbind].
  - intros H. destruct (replace_in_raise _ _ _ _ _ H) as [-> Hn].
    exists "MultipleLines". split; [simpl; auto 20 |].
    split; [reflexivity |].
    destruct (for_columns_ok _ _ _ _ _ E) as [En _]. rewrite <- En.
    assumption.
  - intros H; injection H as <-.
    destruct (for_columns_raise _ _ _ _ _ E) as [c [Hc [-> Hn]]].
    exists c. split; [apply in_or_app; auto | auto].
Qed.

Lemma clean_rules_ok (df df' : DataFrame) :
  clean_rules df = Ok df' ->
  frame_columns df' = frame_columns df /\
  (forall c, In c (service_columns ++ ["MultipleLines"]) ->
             In c (frame_columns df)) /\
  (forall c, ~ In c (service_columns ++ ["MultipleLines"]) ->
             getitem df' c = getitem df c).
Proof.
  unfold clean_rules.
  destruct (for_columns _ service_columns df) as [df1 |] eqn:E; cbn [rbind];
    [| discriminate].
  intros H.
  destruct (for_columns_ok _ _ _ _ _ E) as [En [Hall Ho]].
  destruct (replace_in_ok _ _ _ _ _ H) as [Hc [En' [_ Ho']]].
  split; [congruence |]. split.
  - intros c Hin. apply in_app_or in Hin. destruct Hin as [Hin | Hin].
    + auto.
    + destruct Hin as [<- | []]. rewrite <- En. assumption.
  - intros c Hn. rewrite Ho'.
    + apply Ho. intros Hin. apply Hn. apply in_or_app. auto.
    + intros ->. apply Hn. apply in_or_app. simpl. auto.
Qed.

(** X1. The run validates its input before it writes anything.  When the
    raw file is missing it raises [FileNotFoundError]; when the table lacks
    one of the ten columns the script reads by name it raises the
    [KeyError] of a required column that the table lacks; in both cases the
    disk is unchanged.  Lines 17-29 succeed exactly on the tables that have
    all ten columns. *)
Theorem X1_input_validated_before_writes
  (parse_float : string -> option Q)
  (raw_data_path preprocessed_X_path preprocessed_y_path
   preprocessor_path label_encoder_path : string) (d : disk) :
  let run := automate_preprocessing parse_float raw_data_path
               preprocessed_X_path preprocessed_y_path preprocessor_path
               label_encoder_path in
  match lookup_file d raw_data_path with
  | None => run d = (Raise (FileNotFoundError raw_data_path), d)
  | Some (CsvFile df) =>
      match clean_and_split parse_float df with
      | Ok _ => forall c, In c required_columns -> In c (frame_columns df)
      | Raise e =>
          (exists c, In c required_columns /\ ~ In c (frame_columns df) /\
                     e = KeyError c) /\
          run d = (Raise e, d)
      end
  | Some _ => run d = (Raise (ParserError raw_data_path), d)
  end.
Proof.
  cbv zeta. rewrite run_unfold.
  destruct (lookup_file d raw_data_path) as [[df | le | ct] |];
    try reflexivity.
  assert (Hcases :
    match clean_and_split parse_float df with
    | Ok _ => forall c, In c required_columns -> In c (frame_columns df)
    | Raise e =>
        exists c, In c required_columns /\ ~ In c (frame_columns df) /\
                  e = KeyError c
    end).
  { clear.
    unfold clean_and_split.
    destruct (clean_rules df) as [df1 | e] eqn:E1; cbn [rbind].
    2: { destruct (clean_rules_raise _ _ E1) as [c [Hc [-> Hn]]].
         exists c. split; [| auto]. unfold required_columns.
         apply in_app_or in Hc. apply in_or_app. simpl in *. tauto. }
    destruct (clean_rules_ok _ _ E1) as [En [Hall _]].
    destruct (getitem df1 "TotalCharges") as [tc | e] eqn:E2; cbn [rbind].
    2: { destruct (getitem_raise _ _ _ E2) as [-> Hn].
         exists "TotalCharges". rewrite <- En.
         split; [simpl; auto 20 | auto]. }
    pose proof (setitem_columns df1 "TotalCharges"
                  (to_numeric_coerce parse_float tc) tc E2) as En2.
    destruct (drop _ "customerID") as [df3 | e] eqn:E3; cbn [rbind].
    2: { destruct (drop_raise _ _ _ E3) as [-> Hn].
         exists "customerID". rewrite <- En, <- En2.
         split; [simpl; auto 20 | auto]. }
    destruct (drop_ok _ _ _ E3) as [Hid [_ Hin3]].
    destruct (drop df3 "Churn") as [X | e] eqn:E4; cbn [rbind].
    2: { destruct (drop_raise _ _ _ E4) as [-> Hn].
         exists "Churn". rewrite <- En, <- En2, <- Hin3 by discriminate.
         split; [simpl; auto 20 | auto]. }
    destruct (drop_ok _ _ _ E4) as [Hch _].
    destruct (getitem df3 "Churn") as [y | e] eqn:E5; cbn [rbind].
    2: { destruct (getitem_raise _ _ _ E5) as [_ Hn]. contradiction. }
    intros c Hc. unfold required_columns in Hc. apply in_app_or in Hc.
    destruct Hc as [Hc | Hc].
    - apply Hall. apply in_or_app. auto.
    - simpl in Hc. destruct Hc as [<- | [<- | [<- | [<- | []]]]].
      + apply Hall. apply in_or_app. simpl. auto.
      + rewrite <- En. eapply getitem_ok_In. eassumption.
      + rewrite <- En, <- En2. assumption.
      + rewrite <- En, <- En2. apply Hin3; [discriminate | assumption].
  }
  destruct (clean_and_split parse_float df) as [[X y] | e];
    [exact Hcases | split; [exact Hcases | reflexivity]].
Qed.

(** ** What cleaning and splitting keep *)

Lemma filter_filter {A} (f g : A -> bool) (l : list A) :
  filter f (filter g l) = filter (fun x => g x && f x) l.
Proof.
  induction l as [| a l IH]; simpl; [reflexivity |].
  destruct (g a); simpl; [destruct (f a) |]; rewrite IH; reflexivity.
Qed.

(** X2. On a table with distinct column labels, the feature table [X] of
    line 28 has the columns of the input in their order without
    [customerID] and [Churn], the target [y] of line 29 is the input's
    [Churn] column as it was read, and every column the script does not
    name reaches [X] unchanged. *)
Theorem X2_split_keeps_columns (parse_float : string -> option Q)
  (df X : DataFrame) (y : series)
  (Hsplit : clean_and_split parse_float df = Ok (X, y))
  (Hnd : NoDup (frame_columns df)) :
  frame_columns X
    = filter (fun c => negb (String.eqb c "customerID")
                       && negb (String.eqb c "Churn")) (frame_columns df) /\
  NoDup (frame_columns X) /\
  getitem df "Churn" = Ok y /\
  (forall c, ~ In c required_columns -> getitem X c = getitem df c).
Proof.
  revert Hsplit. unfold clean_and_split.
  destruct (clean_rules df) as [df1 | e] eqn:E1; cbn [rbind];
    [| discriminate].
  destruct (clean_rules_ok _ _ E1) as [En [_ Hkeep]].
  destruct (getitem df1 "TotalCharges") as [tc | e] eqn:E2; cbn [rbind];
    [| discriminate].
  pose proof (setitem_columns df1 "TotalCharges"
                (to_numeric_coerce parse_float tc) tc E2) as En2.
  destruct (drop _ "customerID") as [df3 | e] eqn:E3; cbn [rbind];
    [| discriminate].
  destruct (drop df3 "Churn") as [X' | e] eqn:E4; cbn [rbind];
    [| discriminate].
  destruct (getitem df3 "Churn") as [y' | e] eqn:E5; cbn [rbind];
    [| discriminate].
  intros H; injection H as <- <-.
  destruct (drop_ok _ _ _ E3) as [_ [Hg3 _]].
  destruct (drop_ok _ _ _ E4) as [_ [Hg4 _]].
  rewrite <- En, <- En2 in Hnd.
  destruct (drop_NoDup _ _ _ E3 Hnd) as [N3 Hnd3].
  destruct (drop_NoDup _ _ _ E4 Hnd3) as [N4 Hnd4].
  split; [| split; [assumption | split]].
  - rewrite N4, N3, filter_filter, En2, En. reflexivity.
  - rewrite <- E5, Hg3 by discriminate.
    rewrite getitem_setitem. simpl. symmetry. apply Hkeep.
    simpl. intros H. repeat destruct H as [H | H]; discriminate || auto.
  - intros c Hc. unfold required_columns in Hc.
    assert (H1 : ~ In c (service_columns ++ ["MultipleLines"])).
    { intros H. apply Hc. apply in_app_or in H. apply in_or_app.
      simpl in *. tauto. }
    assert (H2 : c <> "TotalCharges" /\ c <> "customerID" /\ c <> "Churn").
    { repeat split; intros ->; apply Hc; apply in_or_app; right; simpl;
        auto 10. }
    destruct H2 as [Ht [Hi Hu]].
    rewrite Hg4, Hg3 by assumption. rewrite getitem_setitem.
    apply not_eq_sym, String.eqb_neq in Ht. rewrite Ht. apply Hkeep.
    assumption.
Qed.

Lemma telco_NoDup : NoDup (frame_columns Sample.telco).
Proof.
  cbv [frame_columns Sample.telco Sample.make Sample.services service_columns
       map app fst].
  repeat (constructor;
          [simpl; intros H; repeat destruct H as [H | H];
           discriminate || contradiction |]).
  constructor.
Qed.

Lemma X2_split_keeps_columns_witness :
  exists X y,
    clean_and_split decimal_literal Sample.telco = Ok (X, y) /\
    getitem Sample.telco "Churn" = Ok y /\
    NoDup (frame_columns X).
Proof.
  do 2 eexists. split; [reflexivity |].
  destruct (X2_split_keeps_columns decimal_literal Sample.telco _ _
              eq_refl telco_NoDup) as [_ [H2 [H3 _]]].
  split; [exact H3 | exact H2].
Defined.

Lemma for_columns_get (old new : string) (cols : list string) :
  NoDup cols ->
  forall df df',
    for_columns (replace_in old new) cols df = Ok df' ->
    forall c, In c cols ->
      exists s, getitem df c = Ok s /\
                getitem df' c = Ok (replace old new s).
Proof.
  induction 1 as [| c0 cols Hn0 Hnd IH]; simpl; intros df df' H c Hin;
    [contradiction |].
  destruct (replace_in old new df c0) as [df1 |] eqn:E; simpl in H;
    [| discriminate].
  destruct (replace_in_ok _ _ _ _ _ E) as [_ [_ [[s [Hs Hs']] Ho]]].
  destruct Hin as [<- | Hin].
  - exists s. split; [assumption |].
    destruct (for_columns_ok _ _ _ _ _ H) as [_ [_ Hk]].
    rewrite Hk by assumption. assumption.
  - destruct (IH _ _ H c Hin) as [s1 [H1 H1']].
    exists s1. split; [| assumption].
    rewrite <- Ho; [assumption |]. intros ->. contradiction.
Qed.

Lemma replace_removes (old new : string) (s : series)
  (vs : list (option string)) :
  old <> new -> replace old new s = SObject vs -> ~ In (Some old) vs.
Proof.
  intros Hne. destruct s as [ws | | |]; simpl; try discriminate.
  intros H; injection H as <-. rewrite in_map_iff.
  intros [[x |] [Hx _]]; [| discriminate].
  destruct (String.eqb x old) eqn:E.
  - injection Hx as ->. congruence.
  - injection Hx as ->. rewrite String.eqb_refl in E. discriminate.
Qed.

Lemma service_columns_NoDup : NoDup service_columns.
Proof.
  unfold service_columns.
  repeat (constructor;
          [simpl; intros H; repeat destruct H as [H | H];
           discriminate || contradiction |]).
  constructor.
Qed.

(** X3. What Rule 1 and Rule 2 (source lines 17-19) leave behind: the table
    keeps its columns and their order; each of the six service columns is
    its former self with ["No internet service"] replaced by ["No"], and
    holds no ["No internet service"] any more; [MultipleLines] likewise for
    ["No phone service"]; every other column is untouched. *)
Theorem X3_cleaning_postcondition (df df' : DataFrame)
  (Hclean : clean_rules df = Ok df') :
  frame_columns df' = frame_columns df /\
  (forall c, In c service_columns ->
     exists s,
       getitem df c = Ok s /\
       getitem df' c = Ok (replace "No internet service" "No" s) /\
       forall vs, replace "No internet service" "No" s = SObject vs ->
                  ~ In (Some "No internet service") vs) /\
  (exists s,
     getitem df "MultipleLines" = Ok s /\
     getitem df' "MultipleLines" = Ok (replace "No phone service" "No" s) /\
     forall vs, replace "No phone service" "No" s = SObject vs ->
                ~ In (Some "No phone service") vs) /\
  (forall c, ~ In c (service_columns ++ ["MultipleLines"]) ->
             getitem df' c = getitem df c).
Proof.
  destruct (clean_rules_ok _ _ Hclean) as [En [_ Hkeep]].
  split; [assumption |]. revert Hclean. unfold clean_rules.
  destruct (for_columns _ service_columns df) as [df1 |] eqn:E;
    cbn [rbind]; [| discriminate].
  intros H.
  destruct (replace_in_ok _ _ _ _ _ H) as [_ [_ [[s [Hs Hs']] Ho]]].
  destruct (for_columns_ok _ _ _ _ _ E) as [_ [_ Hk1]].
  split; [| split; [| assumption]].
  - intros c Hc.
    destruct (for_columns_get _ _ _ service_columns_NoDup _ _ E c Hc)
      as [s1 [H1 H1']].
    exists s1. split; [assumption |]. split.
    + rewrite Ho; [assumption |]. intros ->. simpl in Hc.
      repeat destruct Hc as [Hc | Hc]; discriminate || contradiction.
    + intros vs Hvs. eapply replace_removes; [| eassumption]. discriminate.
  - exists s. split; [| split; [assumption |]].
    + rewrite <- Hk1; [assumption |]. simpl. intros Hc.
      repeat destruct Hc as [Hc | Hc]; discriminate || contradiction.
    + intros vs Hvs. eapply replace_removes; [| eassumption]. discriminate.
Qed.

Lemma X3_cleaning_postcondition_witness :
  exists df',
    clean_rules Sample.telco = Ok df' /\
    frame_columns df' = frame_columns Sample.telco.
Proof.
  eexists. split; [reflexivity |].
  exact (proj1 (X3_cleaning_postcondition Sample.telco _ eq_refl)).
Defined.

(** ** The files a run leaves behind *)





(** ** The three column classes *)

Lemma NoDup_column (X : DataFrame) (c : string) (s s' : series) :
  NoDup (frame_columns X) -> In (c, s) X -> In (c, s') X -> s = s'.
Proof.
  intros Hnd H1 H2.
  pose proof (getitem_NoDup X c s Hnd H1) as G1.
  pose proof (getitem_NoDup X c s' Hnd H2) as G2. congruence.
Qed.

Lemma In_select_dtypes (X : DataFrame) (include : list dtype) (c : string) :
  In c (frame_columns (select_dtypes include X)) <->
  exists s, In (c, s) X /\ In (series_dtype s) include.
Proof.
  unfold frame_columns, select_dtypes. rewrite in_map_iff. split.
  - intros [[c' s] [<- Hin]]. apply filter_In in Hin. destruct Hin as [Hin Hf].
    exists s. split; [assumption |]. simpl in *.
    apply existsb_exists in Hf. destruct Hf as [dt [Hdt Hm]].
    destruct dt, (series_dtype s); try discriminate; assumption.
  - intros [s [Hin Hd]]. exists (c, s). split; [reflexivity |].
    apply filter_In. split; [assumption |]. simpl.
    apply existsb_exists. exists (series_dtype s). split; [assumption |].
    destruct (series_dtype s); reflexivity.
Qed.



(** ** The label encoder beyond two classes *)

Section SortedIndex.
Context {A : Type} (cmp : A -> A -> comparison).
Hypothesis cmp_eq : forall x y, cmp x y = Eq <-> x = y.
Hypothesis cmp_antisym : forall x y, cmp x y = CompOpp (cmp y x).

(** In a strictly sorted list, positions compare as the values do. *)
Lemma index_of_compare (l : list A) :
  StronglySorted (fun x y => cmp x y = Lt) l ->
  forall a b i j,
    index_of cmp a l = Some i -> index_of cmp b l = Some j ->
    cmp a b = Nat.compare i j.
Proof.
  induction 1 as [| y l Hs IH Hy]; simpl; intros a b i j Ha Hb;
    [discriminate |].
  rewrite Forall_forall in Hy.
  destruct (cmp a y) eqn:Ea.
  - injection Ha as <-. apply cmp_eq in Ea. subst a.
    destruct (cmp b y) eqn:Eb.
    + injection Hb as <-. apply cmp_eq in Eb. subst b.
      simpl. apply cmp_eq. reflexivity.
    + destruct (index_of cmp b l) as [j' |] eqn:Ej; [| discriminate].
      injection Hb as <-. simpl.
      apply Hy. eapply nth_error_In.
      eapply (index_of_nth_error cmp cmp_eq). eassumption.
    + destruct (index_of cmp b l) as [j' |] eqn:Ej; [| discriminate].
      injection Hb as <-. simpl.
      apply Hy. eapply nth_error_In.
      eapply (index_of_nth_error cmp cmp_eq). eassumption.
  - destruct (index_of cmp a l) as [i' |] eqn:Ei; [| discriminate].
    injection Ha as <-.
    assert (Hya : cmp y a = Lt).
    { apply Hy. eapply nth_error_In.
      eapply (index_of_nth_error cmp cmp_eq). eassumption. }
    rewrite cmp_antisym, Ea in Hya. discriminate.
  - destruct (index_of cmp a l) as [i' |] eqn:Ei; [| discriminate].
    injection Ha as <-.
    destruct (cmp b y) eqn:Eb.
    + injection Hb as <-. apply cmp_eq in Eb. subst b. simpl. assumption.
    + destruct (index_of cmp b l) as [j' |] eqn:Ej; [| discriminate].
      injection Hb as <-.
      assert (Hyb : cmp y b = Lt).
      { apply Hy. eapply nth_error_In.
        eapply (index_of_nth_error cmp cmp_eq). eassumption. }
      rewrite cmp_antisym, Eb in Hyb. discriminate.
    + destruct (index_of cmp b l) as [j' |] eqn:Ej; [| discriminate].
      injection Hb as <-. simpl. eapply IH; eassumption.
Qed.

Lemma lookup_all_cases (cs y : list A) :
  match lookup_all cmp cs y with
  | Ok codes =>
      Forall2 (fun v i => index_of cmp v cs = Some i) y codes
  | Raise e =>
      e = ValueError "y contains previously unseen labels" /\
      exists v, In v y /\ ~ In v cs
  end.
Proof.
  induction y as [| v y IH]; simpl; [constructor |].
  destruct (index_of cmp v cs) as [i |] eqn:Ei.
  - destruct (lookup_all cmp cs y) as [r | e]; simpl.
    + constructor; assumption.
    + destruct IH as [-> [w [Hw Hn]]]. split; [reflexivity |].
      exists w. auto.
  - split; [reflexivity |]. exists v. split; [auto |].
    intros Hin. destruct (index_of_In cmp cmp_eq v cs Hin) as [i Hi].
    congruence.
Qed.
End SortedIndex.

Local Abbreviation ocmp := (cmp_nan_last String.compare).

Lemma ocmp_eq (a b : option string) : ocmp a b = Eq <-> a = b.
Proof. apply nan_last_eq, string_cmp_eq. Qed.

Lemma obj_classes_sorted (vs : list (option string)) :
  StronglySorted (fun x y => ocmp x y = Lt) (unique ocmp vs).
Proof.
  apply unique_sorted.
  - apply ocmp_eq.
  - apply nan_last_antisym, string_cmp_antisym.
  - apply nan_last_trans, string_cmp_trans.
Qed.

Lemma Forall2_inverse_of {A} (cmp : A -> A -> comparison) (cs y : list A)
  (codes : list nat) :
  Forall2 (fun v i => index_of cmp v cs = Some i) y codes ->
  codes = inverse_of cmp cs y.
Proof.
  induction 1 as [| v i y codes Hv _ IH]; simpl; [reflexivity |].
  rewrite Hv, IH. reflexivity.
Qed.

Lemma take_all_Forall2 {A} (cs y : list A) (codes : list nat) :
  Forall2 (fun v i => nth_error cs i = Some v) y codes ->
  take_all cs codes = Ok y.
Proof.
  induction 1 as [| v i y codes Hv _ IH]; simpl; [reflexivity |].
  rewrite Hv, IH. reflexivity.
Qed.

(** X7. For a text target of any cardinality, the codes of [fit_transform]
    are what [transform] of the fitted encoder gives on the same column, and
    they follow the order of the labels: two rows compare by code exactly as
    their labels compare (missing last), so equal labels get equal codes and
    a smaller label a smaller code. *)
Theorem X7_codes_follow_label_order (vs : list (option string)) :
  let le := fst (LabelEncoder_fit_transform (SObject vs)) in
  let codes := snd (LabelEncoder_fit_transform (SObject vs)) in
  LabelEncoder_transform le (SObject vs) = Ok codes /\
  forall i j a b ci cj,
    nth_error vs i = Some a -> nth_error vs j = Some b ->
    nth_error codes i = Some ci -> nth_error codes j = Some cj ->
    ocmp a b = Nat.compare ci cj.
Proof.
  cbv zeta. simpl. split.
  - unfold LabelEncoder_transform. simpl.
    pose proof (lookup_all_cases ocmp ocmp_eq (unique ocmp vs) vs) as H.
    destruct (lookup_all ocmp (unique ocmp vs) vs) as [codes | e].
    + f_equal. apply Forall2_inverse_of. assumption.
    + destruct H as [_ [v [Hv Hn]]]. exfalso. apply Hn.
      apply (In_unique ocmp ocmp_eq). assumption.
  - intros i j a b ci cj Ha Hb Hci Hcj.
    unfold inverse_of in Hci, Hcj.
    rewrite (map_nth_error _ _ _ Ha) in Hci.
    rewrite (map_nth_error _ _ _ Hb) in Hcj.
    destruct (obj_index_of vs a (nth_error_In _ _ Ha)) as [ia [Eia _]].
    destruct (obj_index_of vs b (nth_error_In _ _ Hb)) as [ib [Eib _]].
    rewrite Eia in Hci. rewrite Eib in Hcj.
    injection Hci as <-. injection Hcj as <-.
    eapply (index_of_compare ocmp ocmp_eq).
    + apply nan_last_antisym, string_cmp_antisym.
    + apply obj_classes_sorted.
    + eassumption.
    + eassumption.
Qed.

(** X8. The fitted encoder of a text target encodes a new column exactly
    when every label of it was seen at fit time, and the codes then decode
    back to the column; otherwise [transform] raises [ValueError] for a
    label that was not seen. *)
Theorem X8_transform_needs_seen_labels (vs y : list (option string)) :
  let le := fst (LabelEncoder_fit_transform (SObject vs)) in
  match LabelEncoder_transform le (SObject y) with
  | Ok codes =>
      (forall v, In v y -> In v vs) /\
      LabelEncoder_inverse_transform le codes = Ok (SObject y)
  | Raise e =>
      e = ValueError "y contains previously unseen labels" /\
      exists v, In v y /\ ~ In v vs
  end.
Proof.
  cbv zeta. unfold LabelEncoder_transform, LabelEncoder_inverse_transform.
  simpl.
  pose proof (lookup_all_cases ocmp ocmp_eq (unique ocmp vs) y) as H.
  destruct (lookup_all ocmp (unique ocmp vs) y) as [codes | e].
  - assert (Hnth : Forall2 (fun v i => nth_error (unique ocmp vs) i = Some v)
                           y codes).
    { eapply Forall2_impl; [| eassumption]. intros v i Hi.
      eapply (index_of_nth_error ocmp ocmp_eq). eassumption. }
    split.
    + intros v Hv. apply (In_unique ocmp ocmp_eq).
      clear H. induction Hnth as [| w i y codes Hw _ IH];
        [contradiction |].
      destruct Hv as [<- | Hv]; [eapply nth_error_In; eassumption | auto].
    + rewrite (take_all_Forall2 _ _ _ Hnth). reflexivity.
  - destruct H as [-> [v [Hv Hn]]]. split; [reflexivity |].
    exists v. split; [assumption |]. intros Hin. apply Hn.
    apply (In_unique ocmp ocmp_eq). assumption.
Qed.

(** ** The numeric pipeline after fitting *)







(** ** The cells of the output table *)

Lemma clean_and_split_NoDup (parse_float : string -> option Q)
  (df X : DataFrame) (y : series) :
  clean_and_split parse_float df = Ok (X, y) ->
  NoDup (frame_columns df) -> NoDup (frame_columns X).
Proof.
  unfold clean_and_split.
  destruct (clean_rules df) as [df1 | e] eqn:E1; cbn [rbind];
    [| discriminate].
  destruct (clean_rules_ok _ _ E1) as [En _].
  destruct (getitem df1 "TotalCharges") as [tc | e] eqn:E2; cbn [rbind];
    [| discriminate].
  pose proof (setitem_columns df1 "TotalCharges"
                (to_numeric_coerce parse_float tc) tc E2) as En2.
  destruct (drop _ "customerID") as [df3 | e] eqn:E3; cbn [rbind];
    [| discriminate].
  destruct (drop df3 "Churn") as [X' | e] eqn:E4; cbn [rbind];
    [| discriminate].
  destruct (getitem df3 "Churn") as [y' | e] eqn:E5; cbn [rbind];
    [| discriminate].
  intros H Hnd; injection H as <- <-.
  rewrite <- En, <- En2 in Hnd.
  destruct (drop_NoDup _ _ _ E3 Hnd) as [_ Hnd3].
  destruct (drop_NoDup _ _ _ E4 Hnd3) as [_ Hnd4]. assumption.
Qed.

Lemma remainder_is_bool (X : DataFrame) (c : string) (s : series) :
  NoDup (frame_columns X) ->
  In (c, s) (remainder_columns (numerical_cols X) (categorical_cols X) X) ->
  exists bs, s = SBool bs.
Proof.
  intros Hnd Hin. unfold remainder_columns in Hin.
  apply filter_In in Hin. destruct Hin as [Hin Hf]. simpl in Hf.
  apply negb_true_iff in Hf.
  destruct s as [vs | vs | vs | bs]; [| | | eauto]; exfalso;
    (assert (Ht : existsb (String.eqb c)
                    (numerical_cols X ++ categorical_cols X) = true);
     [apply existsb_exists; exists c; split; [| apply String.eqb_refl];
      apply in_or_app; unfold numerical_cols, categorical_cols
     | congruence]).
  - right. apply In_select_dtypes. eexists. split; [eassumption |].
    simpl. auto.
  - left. apply In_select_dtypes. eexists. split; [eassumption |].
    simpl. auto.
  - left. apply In_select_dtypes. eexists. split; [eassumption |].
    simpl. auto.
Qed.





(** ** Runs that return and runs that abort *)


Lemma bool_in_remainder (X : DataFrame) (c : string) (bs : list bool) :
  NoDup (frame_columns X) -> In (c, SBool bs) X ->
  In (c, SBool bs)
     (remainder_columns (numerical_cols X) (categorical_cols X) X).
Proof.
  intros Hnd Hin. unfold remainder_columns. apply filter_In.
  split; [assumption |]. simpl. apply negb_true_iff.
  destruct (existsb (String.eqb c) (numerical_cols X ++ categorical_cols X))
    eqn:E; [| reflexivity].
  apply existsb_exists in E. destruct E as [c' [Hc' Ec]].
  apply String.eqb_eq in Ec. subst c'. apply in_app_or in Hc'.
  unfold numerical_cols, categorical_cols in Hc'.
  rewrite !In_select_dtypes in Hc'.
  destruct Hc' as [[s [Hs Hd]] | [s [Hs Hd]]];
    rewrite <- (NoDup_column X c _ s Hnd Hin Hs) in Hd; simpl in Hd;
    intuition discriminate.
Qed.

(** X13. A [bool] feature column always aborts the run.  On a table that,
    once cleaned and split, has distinct labels, at least one row, an
    observed value in every [float64] column, at least one text column and
    a [bool] column, the column transformer passes the [bool] column
    through, the array is wider than the labels of line 71, and the run
    raises [ValueError] at line 73 with only the label encoder written. *)
Theorem X13_bool_column_aborts
  (parse_float : string -> option Q)
  (raw_data_path preprocessed_X_path preprocessed_y_path
   preprocessor_path label_encoder_path : string)
  (d : disk) (df X : DataFrame) (y : series) (n : nat)
  (c : string) (bs : list bool)
  (Hfile : lookup_file d raw_data_path = Some (CsvFile df))
  (Hsplit : clean_and_split parse_float df = Ok (X, y))
  (Hnd : NoDup (frame_columns X))
  (Hn : Forall (fun col : string * series => series_len (snd col) = n) X)
  (Hpos : (0 < n)%nat)
  (Hobs : forall c vs, In (c, SFloat64 vs) X -> observed vs <> [])
  (Hcat : categorical_cols X <> [])
  (Hbool : In (c, SBool bs) X) :
  automate_preprocessing parse_float raw_data_path preprocessed_X_path
    preprocessed_y_path preprocessor_path label_encoder_path d
  = (Raise (ValueError "Shape of passed values does not match the columns"),
     (label_encoder_path,
      LabelEncoderFile (fst (LabelEncoder_fit_transform y))) :: d).
Proof.
  destruct (fit_num_returns n X Hnd Hn Hpos Hobs)
    as [pn [out_num [Hnum Hnlen]]].
  destruct (fit_cat_returns n X Hnd Hn Hpos Hcat)
    as [pc [out_cat [Xc [Hcfit [Hfit Hclen]]]]].
  pose proof (categorical_fit_spec _ _ _ Hfit) as Epc.
  assert (Hw : List.length out_cat
               = List.length (feature_names (categorical_cols X)
                                (categories_ (cat_onehot pc)))).
  { rewrite feature_names_length.
    - eapply categorical_transform_width; [eassumption |].
      eapply categorical_fit_transform_output; eassumption.
    - rewrite Epc; simpl. rewrite length_map. symmetry. assumption. }
  set (rem := remainder_columns (numerical_cols X) (categorical_cols X) X).
  set (g := fun s => match as_float s with Ok col => col | Raise _ => [] end).
  assert (Hrem : mapM as_float (map snd rem) = Ok (map g (map snd rem))).
  { apply mapM_map. intros s Hs. apply in_map_iff in Hs.
    destruct Hs as [[c' s'] [<- Hin]]. simpl.
    destruct (remainder_is_bool X c' s' Hnd Hin) as [bs' ->]. reflexivity. }
  assert (Hrlen : (0 < List.length (map g (map snd rem)))%nat).
  { rewrite !length_map.
    pose proof (bool_in_remainder X c bs Hnd Hbool) as Hin. fold rem in Hin.
    destruct rem; [contradiction | simpl; lia]. }
  rewrite run_unfold, Hfile, Hsplit. cbv zeta.
  unfold ColumnTransformer_fit_transform.
  rewrite Hnum, Hcfit. cbn [rbind]. fold rem. rewrite Hrem. cbn [rbind].
  unfold label_output. cbn [ct_cat rbind].
  unfold get_feature_names_out.
  replace (List.length (categorical_cols X) =?
           List.length (categories_ (cat_onehot pc)))%nat with true.
  2: { symmetry. apply Nat.eqb_eq. rewrite Epc; simpl.
       rewrite length_map. symmetry. assumption. }
  cbn [rbind]. unfold pd_DataFrame.
  match goal with
  | |- context [(?a =? ?b)%nat] => replace (a =? b)%nat with false
  end; [reflexivity |].
  symmetry. apply Nat.eqb_neq. unfold to_nan_array.
  rewrite !length_app, !length_map in *. lia.
Qed.

Lemma X13_bool_column_aborts_witness :
  fst (Sample.paths_run Sample.telco_bool)
  = Raise (ValueError "Shape of passed values does not match the columns").
Proof.
  eassert (Es : clean_and_split decimal_literal Sample.telco_bool
                = Ok (_, _)) by (vm_compute; reflexivity).
  unfold Sample.paths_run.
  rewrite (X13_bool_column_aborts decimal_literal "raw.csv" "X.csv" "y.csv"
             "preprocessor.joblib" "label_encoder.joblib"
             [("raw.csv", CsvFile Sample.telco_bool)] Sample.telco_bool
             _ _ 3%nat "PaperlessBilling" [true; false; true] eq_refl Es).
  - reflexivity.
  - unfold frame_columns. simpl.
    repeat (constructor;
            [simpl; intros H; repeat destruct H as [H | H];
             discriminate || contradiction |]).
    constructor.
  - repeat constructor.
  - lia.
  - intros c vs Hin. simpl in Hin.
    repeat destruct Hin as [Hin | Hin]; try contradiction;
      try discriminate; injection Hin as _ <-; discriminate.
  - discriminate.
  - simpl. auto 20.
Defined.









(** ** The entry point *)



(** ** Distinct output labels *)

Lemma append_cancel_l (f x y : string) :
  (f ++ x = f ++ y)%string -> x = y.
Proof.
  induction f as [| ch f IH]; simpl; intros H; [assumption |].
  injection H as H. auto.
Qed.

Lemma tail_no_underscore (ch : ascii) (a : string) :
  ~ has_underscore (String ch a) -> ~ has_underscore a.
Proof.
  intros H [p [q ->]]. apply H. exists (String ch p), q. reflexivity.
Qed.

(** A label [<column>_<category>] of an underscore-free column has one
    reading. *)
Lemma label_split_unique (a : string) :
  forall b x y,
    ~ has_underscore a -> ~ has_underscore b ->
    (a ++ "_" ++ x = b ++ "_" ++ y)%string -> a = b /\ x = y.
Proof.
  induction a as [| ch a IH]; intros [| ch' b] x y Ha Hb H; simpl in H.
  - injection H as ->. auto.
  - injection H as <- _. exfalso. apply Hb. exists "", b. reflexivity.
  - injection H as -> _. exfalso. apply Ha. exists "", a. reflexivity.
  - injection H as <- H.
    destruct (IH b x y (tail_no_underscore _ _ Ha)
                (tail_no_underscore _ _ Hb) H) as [-> ->]. auto.
Qed.

Lemma In_feature_names (names : list string) :
  forall cats l,
    In l (feature_names names cats) ->
    exists f c, In f names /\ l = (f ++ "_" ++ c)%string.
Proof.
  induction names as [| f names IH]; intros [| cs cats] l Hin;
    simpl in Hin; try contradiction.
  apply in_app_or in Hin. destruct Hin as [Hin | Hin].
  - apply in_map_iff in Hin. destruct Hin as [c [<- _]].
    exists f, c. simpl. auto.
  - destruct (IH _ _ Hin) as [f' [c [Hf ->]]]. exists f', c. simpl. auto.
Qed.

Lemma NoDup_map_injective {A B} (f : A -> B) (l : list A) :
  (forall x y, f x = f y -> x = y) -> NoDup l -> NoDup (map f l).
Proof.
  intros Hinj. induction 1 as [| a l Ha Hl IH]; simpl; constructor;
    [| assumption].
  intros Hin. apply in_map_iff in Hin. destruct Hin as [x [E Hx]].
  apply Hinj in E. subst x. contradiction.
Qed.

Lemma feature_names_NoDup (names : list string) :
  forall cats,
    NoDup names -> (forall f, In f names -> ~ has_underscore f) ->
    Forall (@NoDup string) cats ->
    NoDup (feature_names names cats).
Proof.
  induction names as [| f names IH]; intros [| cs cats] Hnd Hus Hcats;
    simpl; try constructor.
  inversion Hnd as [| ? ? Hf Hnd']; subst.
  inversion Hcats as [| ? ? Hcs Hcats']; subst.
  apply NoDup_app.
  - apply NoDup_map_injective; [| assumption].
    intros c c' H. apply (append_cancel_l "_"), (append_cancel_l f).
    assumption.
  - apply IH; [assumption | intros; apply Hus; simpl; auto | assumption].
  - intros l Hl Hl'. apply in_map_iff in Hl. destruct Hl as [c [<- _]].
    destruct (In_feature_names _ _ _ Hl') as [f' [c' [Hf' E]]].
    destruct (label_split_unique f f' c c') as [-> _];
      [apply Hus; simpl; auto | apply Hus; simpl; auto | assumption |].
    contradiction.
Qed.

Lemma select_dtypes_NoDup (include : list dtype) (X : DataFrame) :
  NoDup (frame_columns X) ->
  NoDup (frame_columns (select_dtypes include X)).
Proof.
  unfold frame_columns, select_dtypes.
  induction X as [| [c s] X IH]; simpl; intros Hnd; [constructor |].
  inversion Hnd as [| ? ? Hc Hnd']; subst.
  match goal with |- context [if ?b then _ else _] => destruct b end;
    [| auto].
  simpl. constructor; [| auto].
  intros Hin. apply Hc. apply in_map_iff in Hin.
  destruct Hin as [[c' s'] [E Hin]]. simpl in E. subst c'.
  apply filter_In in Hin. destruct Hin as [Hin _].
  apply (in_map fst) in Hin. exact Hin.
Qed.

Lemma select_dtypes_incl (include : list dtype) (X : DataFrame) (c : string) :
  In c (frame_columns (select_dtypes include X)) -> In c (frame_columns X).
Proof.
  unfold frame_columns, select_dtypes. rewrite !in_map_iff.
  intros [cs [E Hin]]. apply filter_In in Hin. exists cs. tauto.
Qed.

Lemma clean_and_split_incl (parse_float : string -> option Q)
  (df X : DataFrame) (y : series) (c : string) :
  clean_and_split parse_float df = Ok (X, y) ->
  In c (frame_columns X) -> In c (frame_columns df).
Proof.
  unfold clean_and_split.
  destruct (clean_rules df) as [df1 | e] eqn:E1; cbn [rbind];
    [| discriminate].
  destruct (clean_rules_ok _ _ E1) as [En _].
  destruct (getitem df1 "TotalCharges") as [tc | e] eqn:E2; cbn [rbind];
    [| discriminate].
  pose proof (setitem_columns df1 "TotalCharges"
                (to_numeric_coerce parse_float tc) tc E2) as En2.
  destruct (drop _ "customerID") as [df3 | e] eqn:E3; cbn [rbind];
    [| discriminate].
  destruct (drop df3 "Churn") as [X' | e] eqn:E4; cbn [rbind];
    [| discriminate].
  destruct (getitem df3 "Churn") as [y' | e] eqn:E5; cbn [rbind];
    [| discriminate].
  intros H Hin; injection H as <- <-.
  destruct (drop_ok _ _ _ E3) as [Hid [_ H3]].
  destruct (drop_ok _ _ _ E4) as [Hch [_ H4]].
  rewrite <- En, <- En2.
  destruct (string_dec c "Churn") as [-> | Hc];
    [apply H3; [discriminate | assumption] |].
  apply H4 in Hin; [| assumption].
  destruct (string_dec c "customerID") as [-> | Hc']; [assumption |].
  apply H3; assumption.
Qed.

(** X17. When the input table has distinct column labels, none of which
    contains an underscore, the labels of the output feature table of a
    returning run are pairwise distinct. *)
Theorem X17_output_labels_distinct
  (parse_float : string -> option Q)
  (raw_data_path preprocessed_X_path preprocessed_y_path
   preprocessor_path label_encoder_path : string)
  (d d' : disk) (df Xp : DataFrame) (ye : list nat)
  (Hfile : lookup_file d raw_data_path = Some (CsvFile df))
  (Hnd : NoDup (frame_columns df))
  (Hus : forall c, In c (frame_columns df) -> ~ has_underscore c)
  (Hrun : automate_preprocessing parse_float raw_data_path
            preprocessed_X_path preprocessed_y_path preprocessor_path
            label_encoder_path d = (Ok (Xp, ye), d')) :
  NoDup (frame_columns Xp).
Proof.
  destruct (run_ok _ _ _ _ _ _ _ _ _ _ Hrun)
    as [df' [X [y [ct [arr [Hf [Hs [_ [Hct [Hlab _]]]]]]]]]].
  assert (df' = df) as -> by congruence.
  pose proof (clean_and_split_NoDup _ _ _ _ Hs Hnd) as HndX.
  assert (HusX : forall c, In c (frame_columns X) -> ~ has_underscore c).
  { intros c Hc. apply Hus. eapply clean_and_split_incl; eassumption. }
  destruct (label_output_spec _ _ _ _ Hlab) as [pc [Hpc [Hcl [Hal ->]]]].
  destruct (ColumnTransformer_fit_spec _ _ _ _ _ Hct)
    as [out_num [out_cat [out_rem [_ [Hcat _]]]]].
  rewrite Hpc in Hcat.
  destruct (fit_cat_spec _ _ _ _ Hcat) as [ss [Xc [_ [_ Hcfit]]]].
  unfold frame_columns at 1.
  rewrite map_fst_combine_same
    by (rewrite length_map; symmetry; assumption).
  apply NoDup_app.
  - apply select_dtypes_NoDup. assumption.
  - apply feature_names_NoDup.
    + apply select_dtypes_NoDup. assumption.
    + intros f Hf'. apply HusX. eapply select_dtypes_incl. eassumption.
    + rewrite (categorical_fit_spec _ _ _ Hcfit). simpl.
      apply Forall_forall. intros cats Hc. apply in_map_iff in Hc.
      destruct Hc as [fc [<- _]]. apply string_unique_NoDup.
  - intros l Hl Hl'.
    destruct (In_feature_names _ _ _ Hl') as [f [c [_ ->]]].
    apply (HusX (f ++ "_" ++ c)%string).
    + eapply select_dtypes_incl. eassumption.
    + exists f, c. reflexivity.
Qed.

Lemma has_underscore_In (s : string) :
  has_underscore s -> In "_"%char (list_ascii_of_string s).
Proof.
  intros [a [b ->]]. induction a as [| ch a IH]; simpl; auto.
Qed.

Lemma telco_no_underscore (c : string) :
  In c (frame_columns Sample.telco) -> ~ has_underscore c.
Proof.
  intros Hc Hu. apply has_underscore_In in Hu.
  cbv [frame_columns Sample.telco Sample.make Sample.services service_columns
       map app fst] in Hc.
  simpl in Hc.
  repeat (destruct Hc as [<- | Hc];
          [simpl in Hu; repeat destruct Hu as [Hu | Hu];
           discriminate || contradiction |]).
  contradiction.
Qed.

Lemma X17_output_labels_distinct_witness :
  exists Xp ye d',
    Sample.paths_run Sample.telco = (Ok (Xp, ye), d') /\
    NoDup (frame_columns Xp).
Proof.
  destruct (Sample.paths_run Sample.telco) as [[[Xp ye] | e] d'] eqn:E;
    [| vm_compute in E; discriminate].
  exists Xp, ye, d'. split; [reflexivity |].
  exact (X17_output_labels_distinct decimal_literal
           "raw.csv" "X.csv" "y.csv" "preprocessor.joblib"
           "label_encoder.joblib"
           [("raw.csv", CsvFile Sample.telco)] d' Sample.telco Xp ye
           eq_refl telco_NoDup telco_no_underscore E).
Defined.

(** ** A table without rows *)

Lemma check_array_no_rows {A} (estimator : string) (X : list (list A)) :
  X <> [] -> Forall (fun c => List.length c = 0%nat) X ->
  check_array estimator X
  = Raise (ValueError ("Found array with 0 sample(s), required by "
                       ++ estimator)).
Proof.
  intros Hne Hn. destruct X as [| [| x col] X]; [congruence | reflexivity |].
  inversion Hn; discriminate.
Qed.

(** X18. A table with the required columns but no rows aborts the run in the
    first imputer: once cleaned and split, with distinct labels and at
    least one numeric or text column, the run raises [ValueError] for an
    array with 0 samples, after writing the label encoder (of an empty
    target). *)
Theorem X18_no_rows_aborts
  (parse_float : string -> option Q)
  (raw_data_path preprocessed_X_path preprocessed_y_path
   preprocessor_path label_encoder_path : string)
  (d : disk) (df X : DataFrame) (y : series)
  (Hfile : lookup_file d raw_data_path = Some (CsvFile df))
  (Hsplit : clean_and_split parse_float df = Ok (X, y))
  (Hnd : NoDup (frame_columns X))
  (Hn : Forall (fun col : string * series => series_len (snd col) = 0%nat) X)
  (Hcols : numerical_cols X <> [] \/ categorical_cols X <> []) :
  automate_preprocessing parse_float raw_data_path preprocessed_X_path
    preprocessed_y_path preprocessor_path label_encoder_path d
  = (Raise (ValueError
              "Found array with 0 sample(s), required by SimpleImputer"),
     (label_encoder_path,
      LabelEncoderFile (fst (LabelEncoder_fit_transform y))) :: d).
Proof.
  rewrite run_unfold, Hfile, Hsplit. cbv zeta.
  unfold ColumnTransformer_fit_transform.
  rewrite Forall_forall in Hn.
  assert (Hnum : numerical_cols X <> [] ->
            fit_num X (numerical_cols X)
            = Raise (ValueError
                "Found array with 0 sample(s), required by SimpleImputer")).
  { intros Hne. rewrite fit_num_nonempty by assumption.
    unfold numerical_cols, frame_columns in *.
    set (l := select_dtypes [int64; float64] X) in *.
    assert (Hincl : incl l X) by (subst l; apply incl_filter).
    assert (Ht : forall c s, In (c, s) l ->
                   (exists ws, s = SInt64 ws) \/ (exists ws, s = SFloat64 ws)).
    { intros c' s Hin. subst l. apply filter_In in Hin.
      destruct Hin as [_ Hf].
      destruct s; simpl in Hf; try discriminate; eauto. }
    clearbody l.
    set (g := fun s =>
                match as_float s with Ok col => col | Raise _ => [] end).
    rewrite (select_sublist X l Hnd Hincl). cbn [rbind].
    rewrite (mapM_map as_float g).
    2: { intros s Hs. apply in_map_iff in Hs.
         destruct Hs as [[c' s'] [<- Hin]]. simpl.
         destruct (Ht _ _ Hin) as [[ws ->] | [ws ->]]; reflexivity. }
    cbn [rbind]. unfold numeric_transformer_fit_transform, MeanImputer_fit.
    rewrite check_array_no_rows; [reflexivity | |].
    - do 2 apply map_not_nil. intros ->. apply Hne. reflexivity.
    - apply Forall_forall. intros col Hcol. rewrite map_map in Hcol.
      apply in_map_iff in Hcol. destruct Hcol as [[c' s'] [<- Hin]].
      specialize (Hn _ (Hincl _ Hin)). simpl in Hn. simpl.
      destruct (Ht _ _ Hin) as [[ws ->] | [ws ->]]; subst g; simpl in *;
        rewrite ?length_map; assumption. }
  destruct (numerical_cols X) as [| c0 cs] eqn:En.
  - destruct Hcols as [Hc | Hc]; [congruence |].
    cbn [fit_num rbind]. rewrite fit_cat_nonempty by assumption.
    unfold categorical_cols, frame_columns in *.
    set (l := select_dtypes [object] X) in *.
    assert (Hincl : incl l X) by (subst l; apply incl_filter).
    assert (Ht : forall c s, In (c, s) l -> exists ws, s = SObject ws).
    { intros c' s Hin. subst l. apply filter_In in Hin.
      destruct Hin as [_ Hf].
      destruct s; simpl in Hf; try discriminate; eauto. }
    clearbody l.
    set (g := fun s =>
                match as_object s with Ok col => col | Raise _ => [] end).
    rewrite (select_sublist X l Hnd Hincl). cbn [rbind].
    rewrite (mapM_map as_object g).
    2: { intros s Hs. apply in_map_iff in Hs.
         destruct Hs as [[c' s'] [<- Hin]]. simpl.
         destruct (Ht _ _ Hin) as [ws ->]; reflexivity. }
    cbn [rbind].
    unfold categorical_transformer_fit_transform, ConstantImputer_fit.
    rewrite check_array_no_rows; [reflexivity | |].
    + do 2 apply map_not_nil. intros ->. apply Hc. reflexivity.
    + apply Forall_forall. intros col Hcol. rewrite map_map in Hcol.
      apply in_map_iff in Hcol. destruct Hcol as [[c' s'] [<- Hin]].
      specialize (Hn _ (Hincl _ Hin)). simpl in Hn. simpl.
      destruct (Ht _ _ Hin) as [ws ->]; subst g; simpl in *; assumption.
  - rewrite Hnum by discriminate. reflexivity.
Qed.

Lemma X18_no_rows_aborts_witness :
  fst (Sample.paths_run Sample.telco_empty)
  = Raise (ValueError
             "Found array with 0 sample(s), required by SimpleImputer").
Proof.
  eassert (Es : clean_and_split decimal_literal Sample.telco_empty
                = Ok (_, _)) by (vm_compute; reflexivity).
  unfold Sample.paths_run.
  rewrite (X18_no_rows_aborts decimal_literal "raw.csv" "X.csv"
             "y.csv" "preprocessor.joblib" "label_encoder.joblib"
             [("raw.csv", CsvFile Sample.telco_empty)] Sample.telco_empty
             _ _ eq_refl Es).
  - reflexivity.
  - unfold frame_columns. simpl.
    repeat (constructor;
            [simpl; intros H; repeat destruct H as [H | H];
             discriminate || contradiction |]).
    constructor.
  - repeat constructor.
  - left. discriminate.
Defined.

(** ** The saved numeric pipeline on a new table *)







